(** * Blog-generation flow of write_a_technical_blog (main.py)

    A shallow embedding of [parse_roadmap_file], of the roadmap document
    written by [BlogFlow.generate_blog_roadmap], of [BlogFlow.write_blog_posts]
    and of the module-level [kickoff] entry point.

    Python [str] values are modelled as [list ascii]; an [ascii] is read as
    the Unicode code point 0..255 it encodes.  The three regular expressions
    of [parse_roadmap_file] are embedded one by one as backtracking matchers
    written in continuation-passing style, with the search order of Python's
    [re] engine: lazy quantifiers try the shortest group first, greedy ones
    the longest, and [re.search]/[re.finditer] try the start positions from
    left to right. *)

From Stdlib Require Import List Ascii String Bool Arith Lia.
From Stdlib Require Import DecimalNat.
Import ListNotations.
Open Scope list_scope.

(** ** Text *)

Definition text := list ascii.

Definition lit (s : string) : text := list_ascii_of_string s.

(** ['\n'] *)
Definition NL : ascii := "010"%char.

Fixpoint is_prefix (p s : text) : bool :=
  match p, s with
  | [], _ => true
  | c :: p', d :: s' => Ascii.eqb c d && is_prefix p' s'
  | _ :: _, [] => false
  end.

(** [p in s] for Python strings. *)
Fixpoint contains (p s : text) : bool :=
  is_prefix p s || match s with [] => false | _ :: s' => contains p s' end.

(** [str.isspace] on the code points 0..255. *)
Definition is_space (c : ascii) : bool :=
  let n := nat_of_ascii c in
  ((9 <=? n) && (n <=? 13)) || ((28 <=? n) && (n <=? 32))
  || (n =? 133) || (n =? 160).

Fixpoint lstrip (s : text) : text :=
  match s with
  | c :: s' => if is_space c then lstrip s' else s
  | [] => []
  end.

Definition rstrip (s : text) : text := rev (lstrip (rev s)).

(** [str.strip()] *)
Definition strip (s : text) : text := rstrip (lstrip s).

(** [\d] (ASCII digits; the document only holds those). *)
Definition is_digit (c : ascii) : bool :=
  let n := nat_of_ascii c in (48 <=? n) && (n <=? 57).

(** [str(n)] for a non-negative [int]. *)
Fixpoint uint_text (d : Decimal.uint) : text :=
  match d with
  | Decimal.Nil => []
  | Decimal.D0 d => "0"%char :: uint_text d
  | Decimal.D1 d => "1"%char :: uint_text d
  | Decimal.D2 d => "2"%char :: uint_text d
  | Decimal.D3 d => "3"%char :: uint_text d
  | Decimal.D4 d => "4"%char :: uint_text d
  | Decimal.D5 d => "5"%char :: uint_text d
  | Decimal.D6 d => "6"%char :: uint_text d
  | Decimal.D7 d => "7"%char :: uint_text d
  | Decimal.D8 d => "8"%char :: uint_text d
  | Decimal.D9 d => "9"%char :: uint_text d
  end.

Definition str_nat (n : nat) : text := uint_text (Nat.to_uint n).

(** [s.replace(a, b)] for one-character [a] and [b]. *)
Definition replace_char (a b : ascii) (s : text) : text :=
  map (fun c => if Ascii.eqb c a then b else c) s.

(** ** Regular-expression building blocks

    Each matcher receives the rest of the subject string (the string from
    the current position to its end) and a continuation for the rest of the
    pattern; it returns the first successful overall match in the order
    Python's backtracking engine tries them. *)

Section Matchers.
Context {A : Type}.

(** [X*?] where [X] is a one-character class [p]; the continuation gets
    the characters consumed (the group) and the rest. *)
Fixpoint lazy_star (p : ascii -> bool) (s : text)
    (k : text -> text -> option A) : option A :=
  match k [] s with
  | Some x => Some x
  | None =>
      match s with
      | [] => None
      | c :: s' => if p c then lazy_star p s' (fun g r => k (c :: g) r) else None
      end
  end.

(** [X+?] *)
Definition lazy_plus (p : ascii -> bool) (s : text)
    (k : text -> text -> option A) : option A :=
  match s with
  | [] => None
  | c :: s' => if p c then lazy_star p s' (fun g r => k (c :: g) r) else None
  end.

(** [X*] (greedy, backtracking one character at a time). *)
Fixpoint greedy_star (p : ascii -> bool) (s : text) (k : text -> option A)
    : option A :=
  match s with
  | c :: s' =>
      if p c then
        match greedy_star p s' k with
        | Some x => Some x
        | None => k s
        end
      else k s
  | [] => k s
  end.

(** [X+] *)
Definition greedy_plus (p : ascii -> bool) (s : text) (k : text -> option A)
    : option A :=
  match s with
  | c :: s' => if p c then greedy_star p s' k else None
  | [] => None
  end.

End Matchers.

(** [.] without [re.DOTALL] *)
Definition dot (c : ascii) : bool := negb (Ascii.eqb c NL).

(** [.] with [re.DOTALL] *)
Definition dot_all (_ : ascii) : bool := true.

(** [$] without [re.MULTILINE]: at the end, or before a final newline. *)
Definition at_end (s : text) : bool :=
  match s with
  | [] => true
  | [c] => Ascii.eqb c NL
  | _ => false
  end.

(** [re.search(pattern, s)]: the first start position where [m] matches. *)
Fixpoint re_search {A} (m : text -> option A) (s : text) : option A :=
  match m s with
  | Some x => Some x
  | None => match s with [] => None | _ :: s' => re_search m s' end
  end.

(** [r"## Topic: (.+?)(?:\n|$)"] tried at one position; returns group 1. *)
Definition topic_at (s : text) : option text :=
  if is_prefix (lit "## Topic: ") s then
    lazy_plus dot (skipn 10 s)
      (fun g r => if is_prefix [NL] r || at_end r then Some g else None)
  else None.

(** [r"## Goal\n(.*?)\n\n## Planned Posts"] with [re.DOTALL]. *)
Definition goal_at (s : text) : option text :=
  if is_prefix (lit "## Goal" ++ [NL]) s then
    lazy_star dot_all (skipn 8 s)
      (fun g r =>
         if is_prefix ([NL; NL] ++ lit "## Planned Posts") r then Some g
         else None)
  else None.

(** The lookahead [(?=\n\n### \d+\.|$)]. *)
Definition post_lookahead (r : text) : bool :=
  match
    (if is_prefix ([NL; NL] ++ lit "### ") r then
       greedy_plus is_digit (skipn 6 r)
         (fun r' => if is_prefix (lit ".") r' then Some tt else None)
     else None)
  with
  | Some _ => true
  | None => at_end r
  end.

(** [r"### \d+\. (.+?)\n\n(.*?)(?=\n\n### \d+\.|$)"] with [re.DOTALL],
    tried at one position; returns groups 1 and 2 and the rest of the
    subject after the match. *)
Definition post_at (s : text) : option (text * text * text) :=
  if is_prefix (lit "### ") s then
    greedy_plus is_digit (skipn 4 s) (fun r1 =>
      if is_prefix (lit ". ") r1 then
        lazy_plus dot_all (skipn 2 r1) (fun title r2 =>
          if is_prefix [NL; NL] r2 then
            lazy_star dot_all (skipn 2 r2) (fun desc r3 =>
              if post_lookahead r3 then Some (title, desc, r3) else None)
          else None)
      else None)
  else None.

(** [re.finditer]: after a match the scan resumes where the match ended.
    Every match consumes at least ["### "], so [length s + 1] rounds
    suffice. *)
Fixpoint finditer_fuel (fuel : nat) (s : text) : list (text * text) :=
  match fuel with
  | 0 => []
  | S f =>
      match post_at s with
      | Some (t, d, r) => (t, d) :: finditer_fuel f r
      | None => match s with [] => [] | _ :: s' => finditer_fuel f s' end
      end
  end.

Definition post_sections (s : text) : list (text * text) :=
  finditer_fuel (S (List.length s)) s.

(** ** Data model (types.py, main.py) *)

Module BlogPostOutline.
Record t := mk { title : text; description : text }.
End BlogPostOutline.

Module BlogPost.
Record t := mk { title : text; content : text }.
End BlogPost.

(** The pure part of [parse_roadmap_file], after [file.read()]. *)
Definition parse_roadmap (content : text)
    : text * text * list BlogPostOutline.t :=
  let topic :=
    match re_search topic_at content with Some g => strip g | None => [] end in
  let goal :=
    match re_search goal_at content with Some g => strip g | None => [] end in
  let post_outlines :=
    map (fun '(t, d) => BlogPostOutline.mk (strip t) (strip d))
      (post_sections content) in
  (topic, goal, post_outlines).

(** The roadmap document built by [generate_blog_roadmap]
    (main.py, lines 137-144). *)
Fixpoint roadmap_posts (i : nat) (posts : list BlogPostOutline.t) : text :=
  match posts with
  | [] => []
  | post :: rest =>
      lit "### " ++ str_nat i ++ lit ". " ++ BlogPostOutline.title post
      ++ [NL; NL] ++ BlogPostOutline.description post ++ [NL; NL]
      ++ roadmap_posts (S i) rest
  end.

Definition roadmap_content (topic goal : text) (posts : list BlogPostOutline.t)
    : text :=
  lit "# Blog Series Roadmap" ++ [NL; NL]
  ++ lit "## Topic: " ++ topic ++ [NL; NL]
  ++ lit "## Goal" ++ [NL] ++ goal ++ [NL; NL]
  ++ lit "## Planned Posts" ++ [NL; NL]
  ++ roadmap_posts 1 posts.


(** ** Flow state, world and effects *)

(** [BlogState] (main.py, lines 46-60). *)
Module BlogState.
Record t := mk {
  id : text;
  title : text;
  blog_posts : list BlogPost.t;
  blog_roadmap : list BlogPostOutline.t;
  topic : text;
  goal : text
}.
End BlogState.

Definition default_title : text :=
  lit "Python Design Patterns for Machine Learning".

Definition default_goal : text :=
  [NL] ++ lit "        Create a comprehensive series of technical blog posts about comprehensive"
  ++ [NL] ++ lit "        overview with examples of the most common design patterns used in machine"
  ++ [NL] ++ lit "        learning. Each post should explain a specific pattern with real-world "
  ++ [NL] ++ lit "        examples, code snippets, and diagrams. The content should be suitable for "
  ++ [NL] ++ lit "        intermediate Python ML Engineers looking to improve their skills."
  ++ [NL] ++ lit "    ".

(** [BlogState()] with the fresh [uuid4] string [uid]. *)
Definition initial_state (uid : text) : BlogState.t :=
  BlogState.mk uid default_title [] [] default_title default_goal.

(** The [inputs] dictionary passed to [BlogWritingCrew().crew().kickoff]
    (main.py, lines 166-177); [blog_roadmap] holds the [model_dump()] of
    each outline as its (title, description) pair. *)
Module WriteInputs.
Record t := mk {
  goal : text;
  topic : text;
  post_title : text;
  post_description : text;
  blog_roadmap : list (text * text);
  post_index : nat;
  post_index_plus_one : nat;
  total_posts : nat
}.
End WriteInputs.

(** Exceptions that reach the flow: whatever a crew raises, and the
    [OSError]s of [open]. *)
Inductive exc :=
| CrewError (msg : text)
| FileNotFoundError (path : text)
| IsADirectoryError (path : text)
| NotADirectoryError (path : text)
| FileExistsError (path : text)
(** [OSError] with [errno.ENAMETOOLONG] *)
| NameTooLongError (path : text)
| ValueError (msg : text).

Inductive level := INFO | ERROR.

(** Everything the program touches: the flow's [state], the files (an
    association list, newest write first; path strings are taken as
    already normalised), the existing directories (the working directory
    [""] always exists), the calls made to the two crews in order, the
    records sent to [logger], and the next [uuid4] value. *)
Record world := mkWorld {
  state : BlogState.t;
  files : list (text * text);
  dirs : list text;
  plan_calls : list (text * text);
  write_calls : list WriteInputs.t;
  logs : list (level * text);
  fresh_id : text
}.

Definition set_state (s : BlogState.t) (w : world) : world :=
  mkWorld s (files w) (dirs w) (plan_calls w) (write_calls w) (logs w) (fresh_id w).
Definition set_files (f : list (text * text)) (w : world) : world :=
  mkWorld (state w) f (dirs w) (plan_calls w) (write_calls w) (logs w) (fresh_id w).
Definition set_dirs (d : list text) (w : world) : world :=
  mkWorld (state w) (files w) d (plan_calls w) (write_calls w) (logs w) (fresh_id w).
Definition set_plan_calls (c : list (text * text)) (w : world) : world :=
  mkWorld (state w) (files w) (dirs w) c (write_calls w) (logs w) (fresh_id w).
Definition set_write_calls (c : list WriteInputs.t) (w : world) : world :=
  mkWorld (state w) (files w) (dirs w) (plan_calls w) c (logs w) (fresh_id w).
Definition set_logs (l : list (level * text)) (w : world) : world :=
  mkWorld (state w) (files w) (dirs w) (plan_calls w) (write_calls w) l (fresh_id w).

Definition with_topic (x : text) (s : BlogState.t) : BlogState.t :=
  BlogState.mk (BlogState.id s) (BlogState.title s) (BlogState.blog_posts s)
    (BlogState.blog_roadmap s) x (BlogState.goal s).
Definition with_goal (x : text) (s : BlogState.t) : BlogState.t :=
  BlogState.mk (BlogState.id s) (BlogState.title s) (BlogState.blog_posts s)
    (BlogState.blog_roadmap s) (BlogState.topic s) x.
Definition with_roadmap (x : list BlogPostOutline.t) (s : BlogState.t)
    : BlogState.t :=
  BlogState.mk (BlogState.id s) (BlogState.title s) (BlogState.blog_posts s)
    x (BlogState.topic s) (BlogState.goal s).
Definition with_posts (x : list BlogPost.t) (s : BlogState.t) : BlogState.t :=
  BlogState.mk (BlogState.id s) (BlogState.title s) x
    (BlogState.blog_roadmap s) (BlogState.topic s) (BlogState.goal s).

(** A state and exception monad: an exception keeps the world as it was
    when raised (files already written stay written). *)
Definition M (A : Type) : Type := world -> (exc + A) * world.

Definition ret {A} (a : A) : M A := fun w => (inr a, w).

Definition bind {A B} (m : M A) (f : A -> M B) : M B :=
  fun w =>
    match m w with
    | (inl e, w') => (inl e, w')
    | (inr a, w') => f a w'
    end.

Definition raise {A} (e : exc) : M A := fun w => (inl e, w).

Definition gets {A} (f : world -> A) : M A := fun w => (inr (f w), w).

Definition modify (f : world -> world) : M unit := fun w => (inr tt, f w).

Notation "x <- m ;; f" := (bind m (fun x => f))
  (at level 61, m at next level, right associativity).
Notation "m ;; f" := (bind m (fun _ => f))
  (at level 61, right associativity).

Definition update_state (f : BlogState.t -> BlogState.t) : M unit :=
  modify (fun w => set_state (f (state w)) w).

(** [logger.info(msg)] / [logger.error(msg)] *)
Definition log (l : level) (msg : text) : M unit :=
  modify (fun w => set_logs (logs w ++ [(l, msg)]) w).

(** ** File system *)

Definition text_eqb (a b : text) : bool :=
  if list_eq_dec ascii_dec a b then true else false.

Definition mem_text (x : text) (l : list text) : bool := existsb (text_eqb x) l.

Fixpoint lookup_file (p : text) (fs : list (text * text)) : option text :=
  match fs with
  | [] => None
  | (q, c) :: fs' => if text_eqb p q then Some c else lookup_file p fs'
  end.

Definition is_slash (c : ascii) : bool := Ascii.eqb c "/".

Fixpoint skip_to_slash (r : text) : text :=
  match r with
  | [] => []
  | c :: r' => if is_slash c then r else skip_to_slash r' end.

Fixpoint drop_slashes (r : text) : text :=
  match r with
  | c :: r' => if is_slash c then drop_slashes r' else r
  | [] => []
  end.

(** [os.path.dirname] (posixpath). *)
Definition dirname (p : text) : text :=
  let head := rev (skip_to_slash (rev p)) in
  if forallb is_slash head then head else rev (drop_slashes (rev head)).

Definition is_dir (p : text) (w : world) : bool := mem_text p (dirs w).

(** *** Opening a path

    The model is that of Linux with a file system whose names have at most
    [NAME_MAX] bytes (ext4, tmpfs).  Python encodes a path as UTF-8 before
    the system call: a code point below 128 takes one byte, the others
    (128..255 here) two. *)
Definition utf8_len (s : text) : nat :=
  fold_right (fun c n => (if nat_of_ascii c <? 128 then 1 else 2) + n) 0 s.

Definition PATH_MAX : nat := 4096.
Definition NAME_MAX : nat := 255.

Definition NUL : ascii := "000"%char.

Fixpoint upto_slash (r : text) : text :=
  match r with
  | [] => []
  | c :: r' => if is_slash c then [] else c :: upto_slash r'
  end.

(** [os.path.basename] (posixpath): what follows the last ['/']. *)
Definition basename (p : text) : text := rev (upto_slash (rev p)).

(** What fails before the path is walked: [""] names no file
    ([ENOENT]), Python refuses an embedded NUL with [ValueError], and the
    kernel's [getname] a path of [PATH_MAX] bytes or more
    ([ENAMETOOLONG]). *)
Definition path_error (p : text) : option exc :=
  match p with
  | [] => Some (FileNotFoundError p)
  | _ =>
      if existsb (Ascii.eqb NUL) p then Some (ValueError (lit "embedded null byte"))
      else if PATH_MAX <=? utf8_len p then Some (NameTooLongError p)
      else None
  end.

(** The directories the kernel walks through to reach [p], outermost
    first: the prefixes of [p] that end just before a ['/'], are not empty
    and do not end in ['/'] themselves ([a/b/c] gives [a] and [a/b]). *)
Fixpoint walk_dirs_aux (acc : text) (s : text) : list text :=
  match s with
  | [] => []
  | c :: s' =>
      let rest := walk_dirs_aux (c :: acc) s' in
      if is_slash c then
        match acc with
        | d :: _ => if is_slash d then rest else rev acc :: rest
        | [] => rest
        end
      else rest
  end.

Definition walk_dirs (p : text) : list text := walk_dirs_aux [] p.

(** The error of the walk to [p] through [ds]: at the first of them that
    is not a directory, a regular file raises [NotADirectoryError], a name
    over [NAME_MAX] bytes [ENAMETOOLONG], a missing entry
    [FileNotFoundError]; [None] when all are directories. *)
Fixpoint walk_error (p : text) (ds : list text) (w : world) : option exc :=
  match ds with
  | [] => None
  | d :: ds' =>
      if is_dir d w then walk_error p ds' w
      else match lookup_file d (files w) with
           | Some _ => Some (NotADirectoryError p)
           | None =>
               if NAME_MAX <? utf8_len (basename d) then Some (NameTooLongError p)
               else Some (FileNotFoundError p)
           end
  end.

(** [with open(p, "w") as f: f.write(c)]: the path is checked and walked,
    then the last name is looked up in its directory. *)
Definition write_file (p c : text) : M unit :=
  fun w =>
    match path_error p with
    | Some e => (inl e, w)
    | None =>
        match walk_error p (walk_dirs p) w with
        | Some e => (inl e, w)
        | None =>
            if is_dir p w then (inl (IsADirectoryError p), w)
            else if NAME_MAX <? utf8_len (basename p) then (inl (NameTooLongError p), w)
            else (inr tt, set_files ((p, c) :: files w) w)
        end
    end.

(** Reading in text mode with [newline=None] turns ["\r\n"] and a lone
    ["\r"] into ["\n"]. *)
Definition CR : ascii := "013"%char.

Fixpoint universal_newlines (s : text) : text :=
  match s with
  | [] => []
  | c :: s' =>
      if Ascii.eqb c CR then
        NL :: match s' with
              | d :: s'' => if Ascii.eqb d NL then universal_newlines s''
                            else universal_newlines s'
              | [] => []
              end
      else c :: universal_newlines s'
  end.

(** [with open(p, "r", encoding="utf-8") as f: f.read()]; a file holds the
    text written to it. *)
Definition read_file (p : text) : M text :=
  fun w =>
    match path_error p with
    | Some e => (inl e, w)
    | None =>
        match walk_error p (walk_dirs p) w with
        | Some e => (inl e, w)
        | None =>
            if is_dir p w then (inl (IsADirectoryError p), w)
            else match lookup_file p (files w) with
                 | Some c => (inr (universal_newlines c), w)
                 | None =>
                     if NAME_MAX <? utf8_len (basename p)
                     then (inl (NameTooLongError p), w)
                     else (inl (FileNotFoundError p), w)
                 end
        end
    end.

(** [os.mkdir(d)] inside [os.makedirs(p, exist_ok=True)], at the directory
    [d] of [p] ([last] when [d] is [p] itself).  An existing directory is
    kept (the [FileExistsError] of [mkdir] is ignored because [d] is a
    directory).  An existing regular file raises [FileExistsError] for
    [p] itself; in a parent, [makedirs] does not create it ([path.exists]
    holds) and the next [mkdir] fails.  Otherwise [d] is created, unless
    its path or its walk fails. *)
Definition mkdir_step (last : bool) (d : text) (w : world) : exc + world :=
  match path_error d with
  | Some e => inl e
  | None =>
      if is_dir d w then inr w
      else match lookup_file d (files w) with
           | Some _ => if last then inl (FileExistsError d) else inr w
           | None =>
               match walk_error d (walk_dirs d) w with
               | Some e => inl e
               | None =>
                   if NAME_MAX <? utf8_len (basename d) then inl (NameTooLongError d)
                   else inr (set_dirs (d :: dirs w) w)
               end
           end
  end.

Fixpoint mkdir_chain (ds : list text) (p : text) (w : world) : exc + world :=
  match ds with
  | [] => mkdir_step true p w
  | d :: ds' =>
      match mkdir_step false d w with
      | inl e => inl e
      | inr w' => mkdir_chain ds' p w'
      end
  end.

(** [os.makedirs(p, exist_ok=True)] for a normalised path (no trailing
    ['/'], no ["."] or [".."]): the directories on the way to [p], then
    [p], outermost first. *)
Definition makedirs (p : text) : M unit :=
  fun w =>
    match mkdir_chain (walk_dirs p) p w with
    | inl e => (inl e, w)
    | inr w' => (inr tt, w')
    end.

(** [open(p, "a")], as [logging.FileHandler(p)] does when it is created:
    the file is created empty when it does not exist, and kept as it is
    otherwise. *)
Definition open_append (p : text) : M unit :=
  fun w =>
    match path_error p with
    | Some e => (inl e, w)
    | None =>
        match walk_error p (walk_dirs p) w with
        | Some e => (inl e, w)
        | None =>
            if is_dir p w then (inl (IsADirectoryError p), w)
            else if NAME_MAX <? utf8_len (basename p) then (inl (NameTooLongError p), w)
            else match lookup_file p (files w) with
                 | Some _ => (inr tt, w)
                 | None => (inr tt, set_files ((p, []) :: files w) w)
                 end
        end
    end.

(** The default [log_file] of [setup_logging]. *)
Definition log_file_default : text := lit "output/blog_generation.log".

(** [setup_logging] (main.py, lines 20-39), for a normalised log path; of
    the two handlers only the file the [FileHandler] opens is modelled.
    It runs when main.py is imported (line 43). *)
Definition setup_logging (log_file : text) : M unit :=
  makedirs (dirname log_file) ;;
  open_append log_file.

(** [parse_roadmap_file] (main.py, lines 63-87). *)
Definition parse_roadmap_file (roadmap_file_path : text)
    : M (text * text * list BlogPostOutline.t) :=
  content <- read_file roadmap_file_path ;;
  ret (parse_roadmap content).

(** Python truthiness of the [roadmap_file] argument ([None] or a [str]). *)
Definition truthy (rf : option text) : bool :=
  match rf with Some (_ :: _) => true | _ => false end.

Definition show_opt (rf : option text) : text :=
  match rf with Some p => p | None => lit "None" end.

(** [repr] of the planning crew's list of outlines, as logged (quotes
    inside titles are not escaped here). *)
Definition repr_outline (o : BlogPostOutline.t) : text :=
  lit "BlogPostOutline(title='" ++ BlogPostOutline.title o
  ++ lit "', description='" ++ BlogPostOutline.description o ++ lit "')".

Fixpoint join_repr (os : list BlogPostOutline.t) : text :=
  match os with
  | [] => []
  | [o] => repr_outline o
  | o :: os' => repr_outline o ++ lit ", " ++ join_repr os'
  end.

Definition repr_outlines (os : list BlogPostOutline.t) : text :=
  lit "[" ++ join_repr os ++ lit "]".

Definition outline_dump (o : BlogPostOutline.t) : text * text :=
  (BlogPostOutline.title o, BlogPostOutline.description o).

(** Name of the file a post is saved to (main.py, line 186). *)
Definition post_filename (index : nat) (title : text) : text :=
  lit "output/Blog_Post_" ++ str_nat (index + 1) ++ lit "_"
  ++ replace_char " " "_" title ++ lit ".md".

(** The name of that file inside [output] when [title] has no ['/']. *)
Definition post_basename (index : nat) (title : text) : text :=
  lit "Blog_Post_" ++ str_nat (index + 1) ++ lit "_"
  ++ replace_char " " "_" title ++ lit ".md".

(** A title under which the file of post [index] can be created: no ['/']
    (which would name a subdirectory), no NUL, and a file name of at most
    [NAME_MAX] bytes. *)
Definition post_title_ok (index : nat) (title : text) : Prop :=
  ~ In "/"%char title /\ ~ In NUL title
  /\ utf8_len (post_basename index title) <= NAME_MAX.

Definition roadmap_path : text := lit "output/Blog_Series_Roadmap.md".

(** ** The flow (main.py, lines 90-221) *)

Section Flow.

(** [BlogPlanningCrew().crew().kickoff(inputs={"topic": .., "goal": ..})]
    followed by [output["posts"]]: the planning crew, as a black box that
    returns the roadmap or raises. *)
Variable plan_crew : text -> text -> exc + list BlogPostOutline.t.

(** [BlogWritingCrew().crew().kickoff(inputs=...)] followed by
    [output["title"]] and [output["content"]]: the writing crew, as a black
    box that may depend on how many writing calls came before (its first
    argument) and on the inputs, and returns a post or raises. *)
Variable write_crew : nat -> WriteInputs.t -> exc + BlogPost.t.

Definition call_plan (topic goal : text) : M (list BlogPostOutline.t) :=
  fun w =>
    let w' := set_plan_calls (plan_calls w ++ [(topic, goal)]) w in
    match plan_crew topic goal with
    | inl e => (inl e, w')
    | inr posts => (inr posts, w')
    end.

Definition call_write (inputs : WriteInputs.t) : M BlogPost.t :=
  fun w =>
    let w' := set_write_calls (write_calls w ++ [inputs]) w in
    match write_crew (List.length (write_calls w)) inputs with
    | inl e => (inl e, w')
    | inr out => (inr out, w')
    end.

(** [BlogFlow.__init__] (lines 96-111). *)
Definition flow_init (skip_planning : bool) (roadmap_file : option text)
    : M unit :=
  uid <- gets fresh_id ;;
  update_state (fun _ => initial_state uid) ;;
  if skip_planning && truthy roadmap_file then
    let path := show_opt roadmap_file in
    parsed <- parse_roadmap_file path ;;
    let '(topic, goal, post_outlines) := parsed in
    update_state (with_topic topic) ;;
    update_state (with_goal goal) ;;
    update_state (with_roadmap post_outlines) ;;
    log INFO (lit "Loaded roadmap from " ++ path ++ lit " with "
              ++ str_nat (List.length post_outlines) ++ lit " posts")
  else ret tt.

(** [BlogFlow.generate_blog_roadmap] (lines 113-151). *)
Definition generate_blog_roadmap (skip_planning : bool)
    : M (list BlogPostOutline.t) :=
  if skip_planning then
    log INFO (lit "Skipping planning phase, using provided roadmap") ;;
    st <- gets state ;;
    ret (BlogState.blog_roadmap st)
  else
    log INFO (lit "Starting the Blog Planning Crew") ;;
    st <- gets state ;;
    posts <- call_plan (BlogState.topic st) (BlogState.goal st) ;;
    log INFO (lit "Blog Posts Roadmap: " ++ repr_outlines posts) ;;
    update_state (with_roadmap posts) ;;
    makedirs (lit "output") ;;
    st <- gets state ;;
    write_file roadmap_path
      (roadmap_content (BlogState.topic st) (BlogState.goal st) posts) ;;
    log INFO (lit "Roadmap saved to output/Blog_Series_Roadmap.md") ;;
    ret posts.

(** [write_single_post] (lines 158-192). *)
Definition write_single_post (post_outline : BlogPostOutline.t) (index : nat)
    : M BlogPost.t :=
  log INFO (lit "Writing Blog Post " ++ str_nat (index + 1) ++ lit ": "
            ++ BlogPostOutline.title post_outline) ;;
  let post_index_plus_one := index + 1 in
  st <- gets state ;;
  output <- call_write
    (WriteInputs.mk (BlogState.goal st) (BlogState.topic st)
       (BlogPostOutline.title post_outline)
       (BlogPostOutline.description post_outline)
       (map outline_dump (BlogState.blog_roadmap st))
       index post_index_plus_one (List.length (BlogState.blog_roadmap st))) ;;
  let title := BlogPost.title output in
  let content := BlogPost.content output in
  let post := BlogPost.mk title content in
  let filename := post_filename index title in
  write_file filename content ;;
  log INFO (lit "Blog post saved as " ++ filename) ;;
  ret post.

(** The loop [for i, post_outline in enumerate(self.state.blog_roadmap)]
    (lines 195-197), from index [i] on. *)
Fixpoint write_posts_loop (outlines : list BlogPostOutline.t) (i : nat)
    : M unit :=
  match outlines with
  | [] => ret tt
  | post_outline :: rest =>
      post <- write_single_post post_outline i ;;
      update_state (fun s => with_posts (BlogState.blog_posts s ++ [post]) s) ;;
      write_posts_loop rest (S i)
  end.

(** [BlogFlow.write_blog_posts] (lines 153-200). *)
Definition write_blog_posts : M (list BlogPost.t) :=
  log INFO (lit "Writing Blog Posts") ;;
  st <- gets state ;;
  write_posts_loop (BlogState.blog_roadmap st) 0 ;;
  st <- gets state ;;
  log INFO (lit "Completed writing " ++ str_nat (List.length (BlogState.blog_posts st))
            ++ lit " blog posts") ;;
  ret (BlogState.blog_posts st).

(** [blog_flow.kickoff()]: the start method, then its listener. *)
Definition flow_kickoff (skip_planning : bool) : M unit :=
  _ <- generate_blog_roadmap skip_planning ;;
  _ <- write_blog_posts ;;
  ret tt.

(** The module-level [kickoff] (lines 203-221). *)
Definition kickoff (skip_planning : bool) (roadmap_file : option text) : M unit :=
  log INFO (lit "Starting Blog Generation Flow") ;;
  if skip_planning && negb (truthy roadmap_file) then
    log ERROR (lit "roadmap_file must be provided when skip_planning is True") ;;
    ret tt
  else
    (if skip_planning then log INFO (lit "Using roadmap file: " ++ show_opt roadmap_file)
     else ret tt) ;;
    flow_init skip_planning roadmap_file ;;
    flow_kickoff skip_planning ;;
    log INFO (lit "Blog Generation Flow completed").

End Flow.

(** The inputs [write_single_post] passes to the writing crew for outline
    [o] at index [i], read off the flow state [st]. *)
Definition expected_inputs (st : BlogState.t) (o : BlogPostOutline.t) (i : nat)
    : WriteInputs.t :=
  WriteInputs.mk (BlogState.goal st) (BlogState.topic st)
    (BlogPostOutline.title o) (BlogPostOutline.description o)
    (map outline_dump (BlogState.blog_roadmap st)) i (i + 1)
    (List.length (BlogState.blog_roadmap st)).

(** The world after the first [j] iterations of the loop of
    [write_blog_posts] (or after the iteration that raised): the points of
    phase 2 at which the state is observed. *)
Definition write_blog_posts_prefix
    (write_crew : nat -> WriteInputs.t -> exc + BlogPost.t) (j : nat) : M unit :=
  log INFO (lit "Writing Blog Posts") ;;
  st <- gets state ;;
  write_posts_loop write_crew (firstn j (BlogState.blog_roadmap st)) 0.

(** The worlds at which phase 2 is observed: after any number of loop
    iterations, and at the end of [write_blog_posts]. *)
Definition phase2_point
    (write_crew : nat -> WriteInputs.t -> exc + BlogPost.t) (w0 w : world) : Prop :=
  (exists j, w = snd (write_blog_posts_prefix write_crew j w0))
  \/ w = snd (write_blog_posts write_crew w0).

(** The (path, content) pairs of the post files for [outs], numbered
    from index [i]. *)
Fixpoint post_files (i : nat) (outs : list BlogPost.t) : list (text * text) :=
  match outs with
  | [] => []
  | out :: outs' =>
      (post_filename i (BlogPost.title out), BlogPost.content out)
      :: post_files (S i) outs'
  end.

(** ** A concrete run: the example of the specification *)

Definition ex_outlines : list BlogPostOutline.t :=
  [BlogPostOutline.mk (lit "LRU Cache") (lit "Evict the least recently used entry.");
   BlogPostOutline.mk (lit "Write-Through Cache") (lit "Write to cache and store together.")].

Definition ex_state : BlogState.t :=
  BlogState.mk (lit "run-1") default_title [] ex_outlines
    (lit "Caching Strategies") (lit "Explain 3 caching patterns").

Definition ex_world : world :=
  mkWorld ex_state [] [lit "output"] [] [] [] (lit "run-1").

(** The example world with a regular file [notes.txt] in the working
    directory. *)
Definition ex_notes_world : world :=
  mkWorld ex_state [(lit "notes.txt", lit "x")] [lit "output"] [] [] [] (lit "run-1").

(** A writing crew that titles each post after its outline (dropping any
    ['/']). *)
Definition ex_write_crew (n : nat) (inp : WriteInputs.t) : exc + BlogPost.t :=
  let t := filter (fun c => negb (is_slash c)) (WriteInputs.post_title inp) in
  inr (BlogPost.mk t (lit "# " ++ t)).

(** A planning crew that returns the two outlines of the example. *)
Definition ex_plan_crew (topic goal : text) : exc + list BlogPostOutline.t :=
  inr ex_outlines.

(** Outlines whose description holds a CRLF line break, and the same
    outlines with a bare newline instead. *)
Definition ex_crlf_outlines : list BlogPostOutline.t :=
  [BlogPostOutline.mk (lit "LRU Cache")
     (lit "Evict the oldest entry." ++ [CR; NL] ++ lit "Keep the rest.")].

Definition ex_lf_outlines : list BlogPostOutline.t :=
  [BlogPostOutline.mk (lit "LRU Cache")
     (lit "Evict the oldest entry." ++ [NL] ++ lit "Keep the rest.")].

Definition ex_crlf_plan_crew (topic goal : text) : exc + list BlogPostOutline.t :=
  inr ex_crlf_outlines.

(** The example world with the fresh state of [BlogState()]. *)
Definition ex_default_world : world := set_state (initial_state (lit "run-1")) ex_world.

(** A writing crew that always succeeds and gives every post the title
    [t]. *)
Definition ex_title_crew (t : text) (n : nat) (inp : WriteInputs.t) : exc + BlogPost.t :=
  inr (BlogPost.mk t (lit "Body.")).

(** A writing crew that succeeds on its first [k] calls and then raises. *)
Definition ex_fail_crew (k n : nat) (inp : WriteInputs.t) : exc + BlogPost.t :=
  if n <? k then ex_write_crew n inp else inl (CrewError (lit "rate limit")).

(** A writing crew that always succeeds and titles every post ["CI/CD"]. *)
Definition ex_slash_crew (n : nat) (inp : WriteInputs.t) : exc + BlogPost.t :=
  inr (BlogPost.mk (lit "CI/CD") (lit "Pipelines.")).

(** ** Phase-2 invariants and log lines *)

(** Log lines of [kickoff]. *)
Definition start_log : level * text := (INFO, lit "Starting Blog Generation Flow").
Definition missing_file_log : level * text :=
  (ERROR, lit "roadmap_file must be provided when skip_planning is True").

Definition completed_logs (n : nat) : list (level * text) :=
  [(INFO, lit "Writing Blog Posts");
   (INFO, lit "Completed writing " ++ str_nat n ++ lit " blog posts")].

(** The correspondence between the posts recorded so far, the writing
    calls made since the start of phase 2 (the log had [c0] entries then),
    the roadmap of [st0], and the files on disk. *)
Definition posts_recorded
    (write_crew : nat -> WriteInputs.t -> exc + BlogPost.t) (st0 : BlogState.t) (c0 : nat) (w : world) : Prop :=
  forall n p, nth_error (BlogState.blog_posts (state w)) n = Some p ->
    exists o, nth_error (BlogState.blog_roadmap st0) n = Some o
      /\ nth_error (write_calls w) (c0 + n) = Some (expected_inputs st0 o n)
      /\ write_crew (c0 + n) (expected_inputs st0 o n) = inr p
      /\ lookup_file (post_filename n (BlogPost.title p)) (files w)
         = Some (BlogPost.content p).

(** Every writing call made from index [i] on had the inputs of its
    outline. *)
Definition calls_expected (st0 : BlogState.t) (c0 : nat) (w : world) : Prop :=
  forall n inp, nth_error (write_calls w) (c0 + n) = Some inp ->
    exists o, nth_error (BlogState.blog_roadmap st0) n = Some o
      /\ inp = expected_inputs st0 o n.

(** The directory layout under which every post file can be created:
    [output] exists and no directory is named like a post file. *)
Definition output_ready (w : world) : Prop :=
  is_dir (lit "output") w = true
  /\ forall d, In d (dirs w) -> is_prefix (lit "output/Blog_Post_") d = false.

(** ** Reading a roadmap document back *)

(** [m] matches at no position of [x] when [y] follows. *)
Definition misses {A} (m : text -> option A) (x y : text) : Prop :=
  forall n, n < List.length x -> m (skipn n x ++ y) = None.

(** A well-formed outline: its title is non-empty, has no surrounding
    whitespace and no blank line; its description has no surrounding
    whitespace and no blank line followed by ["###"]. *)
Definition outline_ok (o : BlogPostOutline.t) : Prop :=
  BlogPostOutline.title o <> []
  /\ strip (BlogPostOutline.title o) = BlogPostOutline.title o
  /\ contains [NL; NL] (BlogPostOutline.title o) = false
  /\ strip (BlogPostOutline.description o) = BlogPostOutline.description o
  /\ contains ([NL; NL] ++ lit "###") (BlogPostOutline.description o) = false.

(** Conditions under which the roadmap document of [(T, G, L)] reads back
    as [(T, G, L)]. *)
Definition roundtrip_ok (T G : text) (L : list BlogPostOutline.t) : Prop :=
  T <> [] /\ strip T = T /\ contains [NL] T = false
  /\ contains (lit "## Goal") T = false /\ contains (lit "### ") T = false
  /\ strip G = G /\ contains (lit "### ") G = false
  /\ contains ([NL; NL] ++ lit "## Planned Posts") G = false
  /\ Forall outline_ok L.

(** No carriage return in the topic, the goal or any title or description:
    the text-mode read of the roadmap file would turn one into a newline. *)
Definition cr_free (T G : text) (L : list BlogPostOutline.t) : Prop :=
  ~ In CR T /\ ~ In CR G
  /\ Forall (fun o => ~ In CR (BlogPostOutline.title o)
                      /\ ~ In CR (BlogPostOutline.description o)) L.

(** What phase 2 leaves alone. *)
Definition phase2_frame (w w' : world) : Prop :=
  state w' = with_posts (BlogState.blog_posts (state w')) (state w)
  /\ (exists ps, BlogState.blog_posts (state w') = BlogState.blog_posts (state w) ++ ps)
  /\ dirs w' = dirs w /\ plan_calls w' = plan_calls w
  /\ exists fs, files w' = fs ++ files w
       /\ forall p c, In (p, c) fs -> exists j t, p = post_filename j t.

(** ** More concrete worlds

    [output] as a regular file; a roadmap document on disk; a planning
    crew that raises. *)

Definition ex_file_world : world :=
  mkWorld ex_state [(lit "output", lit "notes")] [] [] [] [] (lit "run-1").

Definition ex_roadmap_doc : text :=
  roadmap_content (lit "Caching Strategies") (lit "Explain 3 caching patterns") ex_outlines.

Definition ex_roadmap_world : world :=
  mkWorld ex_state [(lit "roadmap.md", ex_roadmap_doc)] [lit "output"] [] [] [] (lit "run-1").

Definition ex_plan_fail (topic goal : text) : exc + list BlogPostOutline.t :=
  inl (CrewError (lit "quota")).

(** * Proofs *)

Ltac run_m :=
  cbv beta iota zeta delta [bind ret raise gets modify update_state log
    set_state set_files set_dirs set_plan_calls set_write_calls set_logs
    with_topic with_goal with_roadmap with_posts] in *;
  cbn -[lit str_nat post_filename write_file read_file makedirs
        expected_inputs roadmap_content parse_roadmap repr_outlines
        mem_text is_dir] in *.

Section Entry.
Variable plan_crew : text -> text -> exc + list BlogPostOutline.t.
Variable write_crew : nat -> WriteInputs.t -> exc + BlogPost.t.


Lemma kickoff_skip_falsy (rf : option text) (w : world) :
  truthy rf = false ->
  kickoff plan_crew write_crew true rf w
  = (inr tt, set_logs (logs w ++ [start_log; missing_file_log]) w).
Proof.
  intros H. destruct w; unfold kickoff; run_m. rewrite H; simpl.
  now rewrite <- app_assoc.
Qed.

Lemma write_blog_posts_empty (w : world) :
  BlogState.blog_roadmap (state w) = [] ->
  write_blog_posts write_crew w
  = (inr (BlogState.blog_posts (state w)),
     set_logs (logs w ++ completed_logs
                 (List.length (BlogState.blog_posts (state w)))) w).
Proof.
  intros H. destruct w as [st fs ds pc wc lg fid]; simpl in H.
  unfold write_blog_posts; run_m. rewrite H. simpl.
  unfold completed_logs. now rewrite <- app_assoc.
Qed.

Lemma kickoff_unreadable_file (p : text) (w : world) (e : exc) :
  p <> [] -> read_file p w = (inl e, w) ->
  exists w', kickoff plan_crew write_crew true (Some p) w = (inl e, w')
    /\ files w' = files w /\ dirs w' = dirs w
    /\ plan_calls w' = plan_calls w /\ write_calls w' = write_calls w.
Proof.
  intros Hp Hr. destruct p as [|c p']; [congruence|].
  assert (Hr' : forall v, files v = files w -> dirs v = dirs w ->
                read_file (c :: p') v = (inl e, v)).
  { intros v Hf Hd. revert Hr. unfold read_file, is_dir.
    assert (Hwalk : forall ds, walk_error (c :: p') ds v = walk_error (c :: p') ds w).
    { induction ds as [|d ds IH]; [reflexivity|]. cbn [walk_error]. unfold is_dir.
      rewrite Hf, Hd, IH. reflexivity. }
    rewrite Hwalk, Hf, Hd.
    destruct (path_error _); [congruence|].
    destruct (walk_error _ _ w); [congruence|].
    destruct (mem_text _ _); [congruence|].
    destruct (lookup_file _ _); [discriminate|].
    destruct (_ <? _); congruence. }
  destruct w as [st fs ds pc wc lg fid].
  unfold kickoff, flow_init, parse_roadmap_file; run_m.
  rewrite Hr' by reflexivity. eexists. repeat split.
Qed.

End Entry.

(** ** Decimal indices and post file names *)

Lemma uint_text_digits (d : Decimal.uint) :
  Forall (fun c => is_digit c = true) (uint_text d).
Proof. induction d; simpl; constructor; auto. Qed.

Lemma uint_text_inj (d1 d2 : Decimal.uint) :
  uint_text d1 = uint_text d2 -> d1 = d2.
Proof.
  revert d2; induction d1; destruct d2; simpl; intros H;
    try discriminate; try reflexivity; injection H as H; f_equal; auto.
Qed.

Lemma str_nat_inj (a b : nat) : str_nat a = str_nat b -> a = b.
Proof.
  unfold str_nat. intros H. apply uint_text_inj in H.
  apply (f_equal Nat.of_uint) in H.
  now rewrite !DecimalNat.Unsigned.of_to in H.
Qed.

Lemma str_nat_digits (n : nat) : Forall (fun c => is_digit c = true) (str_nat n).
Proof. apply uint_text_digits. Qed.

Lemma str_nat_nonempty (n : nat) : str_nat n <> [].
Proof.
  unfold str_nat. destruct (Nat.to_uint n) eqn:E; simpl; try discriminate.
  pose proof (DecimalNat.Unsigned.of_to n) as H.
  rewrite E in H. simpl in H. subst n. discriminate.
Qed.

Lemma digits_sep_inj (sep : ascii) (d1 d2 x y : text) :
  is_digit sep = false ->
  Forall (fun c => is_digit c = true) d1 ->
  Forall (fun c => is_digit c = true) d2 ->
  d1 ++ sep :: x = d2 ++ sep :: y -> d1 = d2.
Proof.
  intros Hs H1. revert d2. induction H1 as [|c d1 Hc H1 IH]; intros d2 H2 H;
    destruct H2 as [|c' d2 Hc' H2]; simpl in H.
  - reflexivity.
  - injection H as -> _. congruence.
  - injection H as <- _. congruence.
  - injection H as -> H. f_equal. auto.
Qed.

Lemma post_filename_inj (m n : nat) (t1 t2 : text) :
  post_filename m t1 = post_filename n t2 -> m = n.
Proof.
  unfold post_filename. intros H. apply app_inv_head in H.
  apply digits_sep_inj in H; [|reflexivity|apply str_nat_digits|apply str_nat_digits].
  apply str_nat_inj in H. lia.
Qed.

Section Loop.
Variable write_crew : nat -> WriteInputs.t -> exc + BlogPost.t.

Lemma write_file_cases (p c : text) (w : world) :
  write_file p c w = (inr tt, set_files ((p, c) :: files w) w)
  \/ exists e, write_file p c w = (inl e, w).
Proof.
  unfold write_file. destruct (path_error p); [eauto|].
  destruct (walk_error _ _ w); [eauto|].
  destruct (is_dir p w); [eauto|]. destruct (_ <? _); eauto.
Qed.

Lemma walk_error_same (p : text) (ds : list text) (w v : world) :
  files v = files w -> dirs v = dirs w -> walk_error p ds v = walk_error p ds w.
Proof.
  intros Hf Hd. induction ds as [|d ds IH]; [reflexivity|]. cbn [walk_error].
  unfold is_dir. rewrite Hf, Hd, IH. reflexivity.
Qed.

Lemma write_file_irrelevant (p c : text) (w v : world) :
  files v = files w -> dirs v = dirs w ->
  fst (write_file p c v) = fst (write_file p c w).
Proof.
  intros Hf Hd. unfold write_file, is_dir.
  rewrite (walk_error_same _ _ w v Hf Hd), Hd.
  destruct (path_error p); [reflexivity|].
  destruct (walk_error _ _ w); [reflexivity|].
  destruct (mem_text _ _); [reflexivity|]. destruct (_ <? _); reflexivity.
Qed.

Lemma write_single_post_cases (o : BlogPostOutline.t) (i : nat) (w w' : world)
    (r : exc + BlogPost.t) :
  write_single_post write_crew o i w = (r, w') ->
  let inp := expected_inputs (state w) o i in
  state w' = state w /\ dirs w' = dirs w /\ plan_calls w' = plan_calls w
  /\ write_calls w' = write_calls w ++ [inp]
  /\ ((exists e, write_crew (List.length (write_calls w)) inp = inl e
                 /\ r = inl e /\ files w' = files w)
      \/ (exists out e, write_crew (List.length (write_calls w)) inp = inr out
                 /\ fst (write_file (post_filename i (BlogPost.title out))
                                   (BlogPost.content out) w) = inl e
                 /\ r = inl e /\ files w' = files w)
      \/ (exists out, write_crew (List.length (write_calls w)) inp = inr out
                 /\ r = inr out
                 /\ files w' = (post_filename i (BlogPost.title out),
                                BlogPost.content out) :: files w)).
Proof.
  intros H inp. destruct w as [st fs ds pc wc lg fid].
  unfold write_single_post, call_write in H; run_m.
  fold (expected_inputs st o i) in H. fold inp in H.
  destruct (write_crew (List.length wc) inp) as [e|out] eqn:Hc.
  - inversion H; subst. repeat split; eauto 10.
  - set (w1 := {| state := st; files := fs; dirs := ds; plan_calls := pc;
                  write_calls := wc ++ [inp];
                  logs := lg ++ _; fresh_id := fid |}) in H.
    destruct (write_file_cases (post_filename i (BlogPost.title out))
                (BlogPost.content out) w1) as [Hw|[e Hw]];
      rewrite Hw in H; inversion H; subst.
    + destruct out. repeat split; eauto 10.
    + repeat split; auto. right; left. exists out, e. repeat split; auto.
      rewrite <- (write_file_irrelevant _ _ _ w1); [rewrite Hw|..]; reflexivity.
Qed.

Lemma write_posts_loop_cons (o : BlogPostOutline.t) (os : list BlogPostOutline.t)
    (i : nat) (w : world) :
  write_posts_loop write_crew (o :: os) i w
  = match write_single_post write_crew o i w with
    | (inl e, w') => (inl e, w')
    | (inr p, w') =>
        write_posts_loop write_crew os (S i)
          (set_state (with_posts (BlogState.blog_posts (state w') ++ [p])
                        (state w')) w')
    end.
Proof.
  simpl. unfold bind at 1. destruct (write_single_post write_crew o i w) as [[e|p] w'];
    reflexivity.
Qed.

Lemma text_eqb_spec (a b : text) : text_eqb a b = true <-> a = b.
Proof.
  unfold text_eqb. destruct (list_eq_dec ascii_dec a b); split; congruence.
Qed.

Lemma lookup_file_head (p q c : text) (fs : list (text * text)) :
  lookup_file p ((q, c) :: fs) = if text_eqb p q then Some c else lookup_file p fs.
Proof. reflexivity. Qed.

Lemma expected_inputs_with_posts (ps : list BlogPost.t) (st : BlogState.t)
    (o : BlogPostOutline.t) (i : nat) :
  expected_inputs (with_posts ps st) o i = expected_inputs st o i.
Proof. destruct st; reflexivity. Qed.

Lemma with_posts_twice (ps qs : list BlogPost.t) (st : BlogState.t) :
  with_posts ps (with_posts qs st) = with_posts ps st.
Proof. destruct st; reflexivity. Qed.

Lemma with_posts_posts (st : BlogState.t) :
  with_posts (BlogState.blog_posts st) st = st.
Proof. destruct st; reflexivity. Qed.

Lemma blog_posts_with_posts (ps : list BlogPost.t) (st : BlogState.t) :
  BlogState.blog_posts (with_posts ps st) = ps.
Proof. destruct st; reflexivity. Qed.


Lemma write_posts_loop_invariant (st0 : BlogState.t) (c0 : nat) :
  forall os i w,
  state w = with_posts (BlogState.blog_posts (state w)) st0 ->
  List.length (BlogState.blog_posts (state w)) = i ->
  List.length (write_calls w) = c0 + i ->
  (forall n o, nth_error os n = Some o ->
     nth_error (BlogState.blog_roadmap st0) (i + n) = Some o) ->
  posts_recorded write_crew st0 c0 w ->
  let w' := snd (write_posts_loop write_crew os i w) in
  state w' = with_posts (BlogState.blog_posts (state w')) st0
  /\ i <= List.length (BlogState.blog_posts (state w')) <= i + List.length os
  /\ List.length (write_calls w') <= c0 + i + List.length os
  /\ posts_recorded write_crew st0 c0 w'.
Proof.
  induction os as [|o os IH]; intros i w Hst Hlen Hcalls Hos Hrec w'.
  - subst w'; simpl. repeat split; auto; lia.
  - subst w'. rewrite write_posts_loop_cons.
    destruct (write_single_post write_crew o i w) as [r w1] eqn:Hs.
    apply write_single_post_cases in Hs.
    destruct Hs as (Hst1 & Hd1 & Hp1 & Hc1 & Hcase).
    rewrite Hst, expected_inputs_with_posts in Hc1, Hcase.
    assert (Hold : forall n p,
               nth_error (BlogState.blog_posts (state w)) n = Some p ->
               nth_error (write_calls w1) (c0 + n) = nth_error (write_calls w) (c0 + n)).
    { intros n p Hn. rewrite Hc1. apply nth_error_app1.
      assert (n < List.length (BlogState.blog_posts (state w)))
        by (apply nth_error_Some; congruence).
      rewrite Hcalls. lia. }
    assert (Hfail : files w1 = files w -> posts_recorded write_crew st0 c0 w1).
    { intros Hf n p Hn. rewrite Hst1 in Hn. destruct (Hrec n p Hn) as (o' & ? & ? & ? & ?).
      exists o'. rewrite (Hold n p Hn), Hf. auto. }
    destruct Hcase as [(e & Hcr & -> & Hf)|[(out & e & Hcr & Hw & -> & Hf)|(out & Hcr & -> & Hf)]].
    + simpl. rewrite Hst1. repeat split; auto; [lia|lia|rewrite Hc1, length_app; simpl; lia].
    + simpl. rewrite Hst1. repeat split; auto; [lia|lia|rewrite Hc1, length_app; simpl; lia].
    + set (w2 := set_state _ w1).
      assert (Hpost : BlogState.blog_posts (state w2) = BlogState.blog_posts (state w) ++ [out]).
      { unfold w2, set_state; cbn [state]. now rewrite blog_posts_with_posts, Hst1. }
      destruct (IH (S i) w2) as (IH1 & IH2 & IH3 & IH4).
      * unfold w2, set_state; cbn [state]. rewrite blog_posts_with_posts, Hst1.
        rewrite <- (with_posts_twice _ (BlogState.blog_posts (state w)) st0).
        f_equal. exact Hst.
      * rewrite Hpost, length_app, Hlen; simpl; lia.
      * unfold w2, set_state; cbn [write_calls]. rewrite Hc1, length_app, Hcalls; simpl; lia.
      * intros n o' Hn. rewrite <- (Hos (S n)); [f_equal; lia|exact Hn].
      * intros n p Hn. rewrite Hpost in Hn.
        destruct (Nat.lt_ge_cases n i) as [Hlt|Hge].
        -- rewrite nth_error_app1 in Hn by lia.
           destruct (Hrec n p Hn) as (o' & Ho' & Hcall & Hcrew & Hfile).
           exists o'. unfold w2, set_state; cbn [write_calls files].
           rewrite Hc1, Hf, nth_error_app1 by lia.
           repeat split; auto. rewrite lookup_file_head.
           destruct (text_eqb _ _) eqn:Heq; [|exact Hfile].
           apply text_eqb_spec, post_filename_inj in Heq. lia.
        -- rewrite nth_error_app2 in Hn by lia.
           destruct (n - List.length (BlogState.blog_posts (state w))) as [|m] eqn:Hm;
             [|destruct m; discriminate].
           injection Hn as <-. assert (n = i) as -> by lia.
           exists o. unfold w2, set_state; cbn [write_calls files]. rewrite Hc1, Hf.
           rewrite nth_error_app2 by lia. rewrite Hcalls.
           replace (c0 + i - (c0 + i)) with 0 by lia.
           repeat split.
           ++ specialize (Hos 0 o eq_refl). now rewrite Nat.add_0_r in Hos.
           ++ now rewrite <- Hcalls.
           ++ rewrite lookup_file_head.
              replace (text_eqb _ _) with true; [reflexivity|].
              symmetry; apply text_eqb_spec; reflexivity.
      * simpl in IH2, IH3 |- *. repeat split; auto; lia.
Qed.

Lemma nth_error_firstn_some {A} (l : list A) (j n : nat) (x : A) :
  nth_error (firstn j l) n = Some x -> nth_error l n = Some x.
Proof.
  revert l n; induction j; intros l n H; [destruct n; discriminate|].
  destruct l; [destruct n; discriminate|]. destruct n; simpl in *; auto.
Qed.

Lemma write_posts_loop_app (l1 l2 : list BlogPostOutline.t) (i : nat) (w : world) :
  write_posts_loop write_crew (l1 ++ l2) i w
  = match write_posts_loop write_crew l1 i w with
    | (inl e, w') => (inl e, w')
    | (inr _, w') => write_posts_loop write_crew l2 (i + List.length l1) w'
    end.
Proof.
  revert i w; induction l1 as [|o l1 IH]; intros i w.
  - simpl. now rewrite Nat.add_0_r.
  - simpl app. rewrite !write_posts_loop_cons.
    destruct (write_single_post write_crew o i w) as [[e|p] w']; [reflexivity|].
    rewrite IH. simpl. now rewrite Nat.add_succ_r.
Qed.

Lemma write_blog_posts_split (w : world) :
  write_blog_posts write_crew w
  = match write_blog_posts_prefix write_crew
            (List.length (BlogState.blog_roadmap (state w))) w with
    | (inl e, w') => (inl e, w')
    | (inr _, w') =>
        (inr (BlogState.blog_posts (state w')),
         set_logs (logs w' ++ [(INFO, lit "Completed writing "
                     ++ str_nat (List.length (BlogState.blog_posts (state w')))
                     ++ lit " blog posts")]) w')
    end.
Proof.
  unfold write_blog_posts, write_blog_posts_prefix.
  cbv beta iota zeta delta [bind ret gets log modify].
  rewrite firstn_all. destruct (write_posts_loop _ _ _ _) as [[e|[]] w']; reflexivity.
Qed.

Lemma write_blog_posts_prefix_start (j : nat) (w : world) :
  write_blog_posts_prefix write_crew j w
  = write_posts_loop write_crew (firstn j (BlogState.blog_roadmap (state w))) 0
      (set_logs (logs w ++ [(INFO, lit "Writing Blog Posts")]) w).
Proof. reflexivity. Qed.


Lemma write_posts_loop_calls (st0 : BlogState.t) (c0 : nat) :
  forall os i w,
  state w = with_posts (BlogState.blog_posts (state w)) st0 ->
  List.length (write_calls w) = c0 + i ->
  (forall n o, nth_error os n = Some o ->
     nth_error (BlogState.blog_roadmap st0) (i + n) = Some o) ->
  calls_expected st0 c0 w ->
  calls_expected st0 c0 (snd (write_posts_loop write_crew os i w)).
Proof.
  induction os as [|o os IH]; intros i w Hst Hcalls Hos Hexp; [exact Hexp|].
  rewrite write_posts_loop_cons.
  destruct (write_single_post write_crew o i w) as [r w1] eqn:Hs.
  apply write_single_post_cases in Hs.
  destruct Hs as (Hst1 & _ & _ & Hc1 & Hcase).
  rewrite Hst, expected_inputs_with_posts in Hc1.
  assert (Hexp1 : calls_expected st0 c0 w1).
  { intros n inp Hn. rewrite Hc1 in Hn.
    destruct (Nat.lt_ge_cases (c0 + n) (List.length (write_calls w))) as [Hlt|Hge].
    - rewrite nth_error_app1 in Hn by lia. now apply Hexp.
    - rewrite nth_error_app2 in Hn by lia.
      destruct (c0 + n - List.length (write_calls w)) as [|m] eqn:Hm;
        [|destruct m; discriminate].
      injection Hn as <-. assert (n = i) as -> by lia.
      exists o. split; [|reflexivity].
      specialize (Hos 0 o eq_refl). now rewrite Nat.add_0_r in Hos. }
  destruct Hcase as [(e & _ & -> & _)|[(out & e & _ & _ & -> & _)|(out & _ & -> & _)]];
    [exact Hexp1|exact Hexp1|].
  apply IH.
  - cbn [state set_state]. rewrite blog_posts_with_posts, Hst1.
    rewrite <- (with_posts_twice _ (BlogState.blog_posts (state w)) st0).
    f_equal. exact Hst.
  - cbn [write_calls set_state]. rewrite Hc1, length_app, Hcalls; simpl; lia.
  - intros n o' Hn. rewrite <- (Hos (S n)); [f_equal; lia|exact Hn].
  - exact Hexp1.
Qed.

End Loop.

(** ** Writing a post file into an existing [output] directory *)

Lemma is_prefix_app (p s : text) : is_prefix p (p ++ s) = true.
Proof. induction p; simpl; [reflexivity|]. now rewrite Ascii.eqb_refl. Qed.

Lemma skip_to_slash_app (x r : text) :
  ~ In "/"%char x -> skip_to_slash (x ++ r) = skip_to_slash r.
Proof.
  induction x as [|a x IH]; intros H; [reflexivity|]. simpl.
  unfold is_slash. destruct (Ascii.eqb_spec a "/") as [->|_].
  - exfalso; apply H; left; reflexivity.
  - apply IH. intros Hi; apply H; right; exact Hi.
Qed.

Lemma write_file_ok (p c : text) (w : world) :
  path_error p = None -> walk_error p (walk_dirs p) w = None -> is_dir p w = false ->
  utf8_len (basename p) <= NAME_MAX ->
  write_file p c w = (inr tt, set_files ((p, c) :: files w) w).
Proof.
  intros Hp Hw Hd Hl. unfold write_file. rewrite Hp, Hw, Hd.
  replace (NAME_MAX <? utf8_len (basename p)) with false
    by (symmetry; apply Nat.ltb_ge; exact Hl).
  reflexivity.
Qed.

Lemma write_roadmap_ok (c : text) (w : world) :
  is_dir (lit "output") w = true -> is_dir roadmap_path w = false ->
  write_file roadmap_path c w = (inr tt, set_files ((roadmap_path, c) :: files w) w).
Proof.
  intros Ho Hr. apply write_file_ok; [reflexivity| |exact Hr|apply Nat.leb_le; reflexivity].
  change (walk_dirs roadmap_path) with [lit "output"]. cbn [walk_error]. now rewrite Ho.
Qed.

Lemma utf8_len_app (a b : text) : utf8_len (a ++ b) = utf8_len a + utf8_len b.
Proof. induction a as [|c a IH]; [reflexivity|]. cbn [app utf8_len fold_right].
  unfold utf8_len in *. cbn [fold_right]. rewrite IH. lia. Qed.

Lemma walk_dirs_aux_app (acc x y : text) :
  walk_dirs_aux acc (x ++ y) = walk_dirs_aux acc x ++ walk_dirs_aux (rev x ++ acc) y.
Proof.
  revert acc; induction x as [|c x IH]; intros acc; [reflexivity|].
  cbn [app walk_dirs_aux]. rewrite IH. cbn [rev]. rewrite <- app_assoc.
  destruct (is_slash c); [|reflexivity].
  destruct acc as [|d acc]; [reflexivity|]. destruct (is_slash d); reflexivity.
Qed.

Lemma walk_dirs_aux_no_slash (acc x : text) :
  ~ In "/"%char x -> walk_dirs_aux acc x = [].
Proof.
  revert acc; induction x as [|c x IH]; intros acc H; [reflexivity|].
  cbn [walk_dirs_aux]. rewrite IH by (intros Hi; apply H; right; exact Hi).
  destruct (is_slash c) eqn:E; [|reflexivity].
  exfalso. apply H. left. apply Ascii.eqb_eq in E. exact E.
Qed.

Lemma upto_slash_app (x r : text) :
  ~ In "/"%char x -> upto_slash (x ++ r) = x ++ upto_slash r.
Proof.
  induction x as [|c x IH]; intros H; [reflexivity|]. cbn [app upto_slash].
  destruct (is_slash c) eqn:E.
  - exfalso. apply H. left. apply Ascii.eqb_eq in E. exact E.
  - rewrite IH by (intros Hi; apply H; right; exact Hi). reflexivity.
Qed.

(** A path [output/x] with no ['/'] in [x]. *)
Lemma walk_dirs_output (x : text) :
  ~ In "/"%char x -> walk_dirs (lit "output/" ++ x) = [lit "output"].
Proof.
  intros H. unfold walk_dirs. rewrite walk_dirs_aux_app, (walk_dirs_aux_no_slash _ x H).
  reflexivity.
Qed.

Lemma basename_output (x : text) :
  ~ In "/"%char x -> basename (lit "output/" ++ x) = x.
Proof.
  intros H. unfold basename. rewrite rev_app_distr, upto_slash_app.
  - cbn. rewrite app_nil_r. apply rev_involutive.
  - intros Hi. apply H. now apply in_rev.
Qed.

Lemma walk_error_output (p : text) (w : world) :
  is_dir (lit "output") w = true -> walk_error p [lit "output"] w = None.
Proof. intros H. cbn [walk_error]. now rewrite H. Qed.

Lemma replace_char_no_slash (t : text) :
  ~ In "/"%char t -> ~ In "/"%char (replace_char " " "_" t).
Proof.
  intros H Hi. unfold replace_char in Hi. apply in_map_iff in Hi.
  destruct Hi as (c & Hc & Hin).
  destruct (Ascii.eqb c " "); [discriminate|]. subst c. contradiction.
Qed.

Lemma digits_no_slash (d : text) :
  Forall (fun c => is_digit c = true) d -> ~ In "/"%char d.
Proof.
  intros H Hi. rewrite Forall_forall in H. specialize (H _ Hi). discriminate.
Qed.

Lemma post_filename_split (i : nat) (t : text) :
  post_filename i t
  = lit "output/" ++ (lit "Blog_Post_" ++ str_nat (i + 1) ++ lit "_"
                      ++ replace_char " " "_" t ++ lit ".md").
Proof. reflexivity. Qed.

Lemma post_filename_tail_no_slash (i : nat) (t : text) :
  ~ In "/"%char t ->
  ~ In "/"%char (lit "Blog_Post_" ++ str_nat (i + 1) ++ lit "_"
                 ++ replace_char " " "_" t ++ lit ".md").
Proof.
  intros Ht Hi. rewrite !in_app_iff in Hi.
  destruct Hi as [Hi|[Hi|[Hi|[Hi|Hi]]]].
  - simpl in Hi. repeat (destruct Hi as [Hi|Hi]; [discriminate|]). exact Hi.
  - exact (digits_no_slash _ (str_nat_digits (i + 1)) Hi).
  - simpl in Hi. destruct Hi as [Hi|Hi]; [discriminate|exact Hi].
  - exact (replace_char_no_slash t Ht Hi).
  - simpl in Hi. repeat (destruct Hi as [Hi|Hi]; [discriminate|]). exact Hi.
Qed.


Lemma post_filename_basename (i : nat) (t : text) :
  post_filename i t = lit "output/" ++ post_basename i t.
Proof. reflexivity. Qed.

Lemma not_in_replace_char (c : ascii) (t : text) :
  c <> "_"%char -> ~ In c t -> ~ In c (replace_char " " "_" t).
Proof.
  intros Hc H Hi. unfold replace_char in Hi. apply in_map_iff in Hi.
  destruct Hi as (d & Hd & Hin).
  destruct (Ascii.eqb d " "); [congruence|]. subst d. contradiction.
Qed.

Lemma post_filename_no_nul (i : nat) (t : text) :
  ~ In NUL t -> existsb (Ascii.eqb NUL) (post_filename i t) = false.
Proof.
  intros Ht. apply Bool.not_true_iff_false. intros H.
  apply existsb_exists in H. destruct H as (c & Hc & E). apply Ascii.eqb_eq in E.
  subst c. unfold post_filename in Hc. rewrite !in_app_iff in Hc.
  destruct Hc as [Hc|[Hc|[Hc|[Hc|Hc]]]].
  - cbn in Hc. repeat (destruct Hc as [Hc|Hc]; [discriminate|]). exact Hc.
  - pose proof (str_nat_digits (i + 1)) as Hd. rewrite Forall_forall in Hd.
    specialize (Hd _ Hc). discriminate.
  - cbn in Hc. destruct Hc as [Hc|Hc]; [discriminate|exact Hc].
  - exact (not_in_replace_char NUL t ltac:(discriminate) Ht Hc).
  - cbn in Hc. repeat (destruct Hc as [Hc|Hc]; [discriminate|]). exact Hc.
Qed.

Lemma write_post_file_ok (i : nat) (t c : text) (w : world) :
  output_ready w -> post_title_ok i t ->
  write_file (post_filename i t) c w
  = (inr tt, set_files ((post_filename i t, c) :: files w) w).
Proof.
  intros [Hout Hpre] (Ht & Hnul & Hlen).
  assert (Hs : ~ In "/"%char (post_basename i t)).
  { exact (post_filename_tail_no_slash i t Ht). }
  apply write_file_ok.
  - unfold path_error. rewrite post_filename_no_nul by exact Hnul.
    rewrite post_filename_basename, utf8_len_app.
    change (utf8_len (lit "output/")) with 7.
    replace (PATH_MAX <=? _) with false by (symmetry; apply Nat.leb_gt;
      unfold NAME_MAX, PATH_MAX in *; lia).
    reflexivity.
  - rewrite post_filename_basename, walk_dirs_output by exact Hs.
    apply walk_error_output. exact Hout.
  - unfold is_dir, mem_text. apply Bool.not_true_iff_false. intros He.
    apply existsb_exists in He. destruct He as (d & Hd & Heq).
    apply text_eqb_spec in Heq. subst d. specialize (Hpre _ Hd).
    unfold post_filename in Hpre. rewrite is_prefix_app in Hpre. discriminate.
  - rewrite post_filename_basename, basename_output by exact Hs. exact Hlen.
Qed.

Lemma post_files_app (i : nat) (outs : list BlogPost.t) (out : BlogPost.t) :
  post_files i (outs ++ [out])
  = post_files i outs
    ++ [(post_filename (i + List.length outs) (BlogPost.title out),
         BlogPost.content out)].
Proof.
  revert i; induction outs as [|o outs IH]; intros i; simpl.
  - now rewrite Nat.add_0_r.
  - rewrite IH. now replace (S i + List.length outs) with (i + S (List.length outs)) by lia.
Qed.

Lemma output_ready_dirs (v w : world) :
  dirs v = dirs w -> output_ready w -> output_ready v.
Proof. unfold output_ready, is_dir. intros ->. exact (fun H => H). Qed.

Section Success.
Variable write_crew : nat -> WriteInputs.t -> exc + BlogPost.t.

Lemma write_single_post_ok (o : BlogPostOutline.t) (i : nat) (w : world)
    (out : BlogPost.t) :
  output_ready w ->
  write_crew (List.length (write_calls w)) (expected_inputs (state w) o i) = inr out ->
  post_title_ok i (BlogPost.title out) ->
  exists w1, write_single_post write_crew o i w = (inr out, w1)
    /\ state w1 = state w /\ dirs w1 = dirs w
    /\ write_calls w1 = write_calls w ++ [expected_inputs (state w) o i]
    /\ files w1 = (post_filename i (BlogPost.title out), BlogPost.content out)
                  :: files w.
Proof.
  intros Hready Hcr Hslash.
  destruct (write_single_post write_crew o i w) as [r w1] eqn:Hs.
  apply write_single_post_cases in Hs. destruct Hs as (H1 & H2 & _ & H4 & Hcase).
  destruct Hcase as [(e & Hc & _)|[(out' & e & Hc & Hw & _)|(out' & Hc & -> & Hf)]].
  - congruence.
  - rewrite Hcr in Hc. injection Hc as <-.
    rewrite (write_post_file_ok _ _ _ _ Hready Hslash) in Hw. discriminate.
  - rewrite Hcr in Hc. injection Hc as <-. exists w1. auto.
Qed.

Lemma write_posts_loop_ok (st0 : BlogState.t) :
  forall os i w,
  state w = with_posts (BlogState.blog_posts (state w)) st0 ->
  output_ready w ->
  (forall j o, nth_error os j = Some o ->
     exists out, write_crew (List.length (write_calls w) + j) (expected_inputs st0 o (i + j))
                 = inr out
       /\ post_title_ok (i + j) (BlogPost.title out)) ->
  exists outs w', write_posts_loop write_crew os i w = (inr tt, w')
    /\ List.length outs = List.length os
    /\ (forall n out, nth_error outs n = Some out ->
          exists o, nth_error os n = Some o
            /\ write_crew (List.length (write_calls w) + n)
                 (expected_inputs st0 o (i + n)) = inr out)
    /\ state w' = with_posts (BlogState.blog_posts (state w) ++ outs) st0
    /\ files w' = rev (post_files i outs) ++ files w
    /\ dirs w' = dirs w
    /\ List.length (write_calls w') = List.length (write_calls w) + List.length os.
Proof.
  induction os as [|o os IH]; intros i w Hst Hready Hcrew.
  - exists [], w. simpl. rewrite app_nil_r, <- Hst.
    repeat split; auto; try lia. intros [|n]; discriminate.
  - destruct (Hcrew 0 o eq_refl) as (out & Hcr & Hslash).
    rewrite !Nat.add_0_r, <- (expected_inputs_with_posts (BlogState.blog_posts (state w))),
      <- Hst in Hcr.
    rewrite Nat.add_0_r in Hslash.
    destruct (write_single_post_ok o i w out Hready Hcr Hslash)
      as (w1 & Hs & Hst1 & Hd1 & Hc1 & Hf1).
    rewrite write_posts_loop_cons, Hs.
    set (w2 := set_state _ w1).
    assert (Hpost : BlogState.blog_posts (state w2)
                    = BlogState.blog_posts (state w) ++ [out]).
    { unfold w2, set_state; cbn [state]. now rewrite blog_posts_with_posts, Hst1. }
    assert (Hc2 : List.length (write_calls w2) = S (List.length (write_calls w))).
    { unfold w2, set_state; cbn [write_calls]. rewrite Hc1, length_app; simpl; lia. }
    destruct (IH (S i) w2) as (outs & w' & Hl & Hlen & Hnth & Hst' & Hf' & Hd' & Hc').
    + unfold w2, set_state; cbn [state]. rewrite blog_posts_with_posts, Hst1.
      rewrite <- (with_posts_twice _ (BlogState.blog_posts (state w)) st0).
      f_equal. exact Hst.
    + apply (output_ready_dirs _ w); [exact Hd1|exact Hready].
    + intros j o' Hj. rewrite Hc2.
      destruct (Hcrew (S j) o' Hj) as (out' & Hcr' & Hok').
      exists out'. rewrite !Nat.add_succ_r in Hcr', Hok'. rewrite Nat.add_succ_r in Hcr'. cbn [Nat.add]. split; [exact Hcr'|exact Hok'].
    + exists (out :: outs), w'. repeat split.
      * exact Hl.
      * simpl; lia.
      * intros [|n] out' Hn; simpl in Hn.
        -- injection Hn as <-. exists o. split; [reflexivity|].
           rewrite Nat.add_0_r, Nat.add_0_r, <- Hcr, Hst, expected_inputs_with_posts.
           reflexivity.
        -- destruct (Hnth n out' Hn) as (o' & Ho' & Hc). exists o'. split; [exact Ho'|].
           rewrite Hc2 in Hc. rewrite <- Hc. f_equal; [lia|f_equal; lia].
      * rewrite Hst', Hpost, <- app_assoc. reflexivity.
      * rewrite Hf'. unfold w2, set_state; cbn [files]. rewrite Hf1. simpl.
        rewrite <- app_assoc. reflexivity.
      * rewrite Hd'. unfold w2, set_state; cbn [dirs]. exact Hd1.
      * rewrite Hc', Hc2. simpl; lia.
Qed.

End Success.

(** ** Phase 2 observed at every point *)

Section Phase2.
Variable write_crew : nat -> WriteInputs.t -> exc + BlogPost.t.

Lemma phase2_end (w0 : world) (P : world -> Prop) :
  (forall j, P (snd (write_blog_posts_prefix write_crew j w0))) ->
  (forall w l, P w -> P (set_logs l w)) ->
  P (snd (write_blog_posts write_crew w0)).
Proof.
  intros Hpre Hlogs. rewrite write_blog_posts_split.
  specialize (Hpre (List.length (BlogState.blog_roadmap (state w0)))).
  destruct (write_blog_posts_prefix write_crew _ w0) as [[e|u] w'];
    simpl in *; auto.
Qed.

Lemma phase2_calls (w0 w : world) :
  phase2_point write_crew w0 w ->
  calls_expected (state w0) (List.length (write_calls w0)) w.
Proof.
  assert (Hpre : forall j, calls_expected (state w0) (List.length (write_calls w0))
                   (snd (write_blog_posts_prefix write_crew j w0))).
  { intros j. rewrite write_blog_posts_prefix_start.
    apply write_posts_loop_calls; cbn [state write_calls set_logs].
    - symmetry; apply with_posts_posts.
    - lia.
    - intros n o Hn. apply (nth_error_firstn_some _ j). exact Hn.
    - intros n inp Hn.
      assert (Hnone : nth_error (write_calls w0) (List.length (write_calls w0) + n) = None)
        by (apply nth_error_None; lia).
      change (nth_error (write_calls w0) (List.length (write_calls w0) + n) = Some inp) in Hn.
      congruence. }
  intros [(j & ->) | ->]; [apply Hpre|].
  apply (phase2_end w0 (calls_expected _ _)); [exact Hpre|intros w l H; exact H].
Qed.

Lemma phase2_recorded (w0 w : world) :
  BlogState.blog_posts (state w0) = [] ->
  phase2_point write_crew w0 w ->
  List.length (BlogState.blog_posts (state w))
    <= List.length (BlogState.blog_roadmap (state w0))
  /\ posts_recorded write_crew (state w0) (List.length (write_calls w0)) w.
Proof.
  intros H0.
  assert (Hpre : forall j,
    let w := snd (write_blog_posts_prefix write_crew j w0) in
    List.length (BlogState.blog_posts (state w))
      <= List.length (BlogState.blog_roadmap (state w0))
    /\ posts_recorded write_crew (state w0) (List.length (write_calls w0)) w).
  { intros j v. subst v. rewrite write_blog_posts_prefix_start.
    destruct (write_posts_loop_invariant write_crew (state w0)
                (List.length (write_calls w0)) (firstn j (BlogState.blog_roadmap (state w0))) 0
                (set_logs (logs w0 ++ [(INFO, lit "Writing Blog Posts")]) w0))
      as (_ & Hlen & _ & Hrec); cbn [state write_calls set_logs].
    - symmetry; apply with_posts_posts.
    - now rewrite H0.
    - lia.
    - intros n o Hn. apply (nth_error_firstn_some _ j). exact Hn.
    - intros n p Hn. cbn [state set_logs] in Hn. rewrite H0 in Hn.
      destruct n; discriminate.
    - split; [|exact Hrec].
      rewrite length_firstn in Hlen. lia. }
  intros [(j & ->) | ->]; [apply Hpre|].
  apply (phase2_end w0 (fun w =>
    List.length (BlogState.blog_posts (state w))
      <= List.length (BlogState.blog_roadmap (state w0))
    /\ posts_recorded write_crew (state w0) (List.length (write_calls w0)) w));
    [exact Hpre|intros w l H; exact H].
Qed.

End Phase2.

(** ** Whole runs with an empty roadmap *)

Lemma read_file_world (p : text) (w : world) : snd (read_file p w) = w.
Proof.
  unfold read_file. destruct (path_error p); [reflexivity|].
  destruct (walk_error _ _ w); [reflexivity|]. destruct (is_dir p w); [reflexivity|].
  destruct (lookup_file _ _); [reflexivity|]. destruct (_ <? _); reflexivity.
Qed.

Lemma read_file_irrelevant (p : text) (w v : world) :
  files v = files w -> dirs v = dirs w -> fst (read_file p v) = fst (read_file p w).
Proof.
  intros Hf Hd. unfold read_file.
  rewrite (walk_error_same _ _ w v Hf Hd).
  destruct (path_error p); [reflexivity|].
  destruct (walk_error _ _ w); [reflexivity|].
  unfold is_dir. rewrite Hd, Hf. destruct (mem_text p (dirs w)); [reflexivity|].
  destruct (lookup_file p (files w)); [reflexivity|]. destruct (_ <? _); reflexivity.
Qed.

Lemma walk_error_kinds (p : text) (ds : list text) (w : world) (e : exc) :
  walk_error p ds w = Some e ->
  e = FileNotFoundError p \/ e = NotADirectoryError p \/ e = NameTooLongError p.
Proof.
  induction ds as [|d ds IH]; cbn [walk_error]; [discriminate|].
  destruct (is_dir d w); [exact IH|].
  destruct (lookup_file d (files w)); [intros H; injection H as <-; auto|].
  destruct (_ <? _); intros H; injection H as <-; auto.
Qed.

Lemma read_file_errors (p : text) (w : world) (e : exc) :
  p <> [] -> fst (read_file p w) = inl e ->
  e = FileNotFoundError p \/ e = IsADirectoryError p \/ e = NotADirectoryError p
  \/ e = NameTooLongError p \/ e = ValueError (lit "embedded null byte").
Proof.
  intros Hp. unfold read_file, path_error. destruct p as [|c p']; [congruence|].
  destruct (existsb _ _); [cbn [fst]; intros H; injection H as <-; auto 6|].
  destruct (_ <=? _); [cbn [fst]; intros H; injection H as <-; auto 6|].
  destruct (walk_error _ _ w) as [e'|] eqn:Hw.
  - cbn [fst]. intros H; injection H as <-.
    destruct (walk_error_kinds _ _ _ _ Hw) as [ -> | [ -> | -> ] ]; auto 6.
  - destruct (is_dir _ w); [cbn [fst]; intros H; injection H as <-; auto 6|].
    destruct (lookup_file _ _); [discriminate|].
    destruct (_ <? _); cbn [fst]; intros H; injection H as <-; auto 6.
Qed.

Lemma read_file_same (p : text) (r : exc + text) (w v : world) :
  read_file p w = (r, w) -> files v = files w -> dirs v = dirs w ->
  read_file p v = (r, v).
Proof.
  intros H Hf Hd.
  rewrite (surjective_pairing (read_file p v)), read_file_world,
    (read_file_irrelevant p w v Hf Hd), H.
  reflexivity.
Qed.

Section Runs.
Variable plan_crew : text -> text -> exc + list BlogPostOutline.t.
Variable write_crew : nat -> WriteInputs.t -> exc + BlogPost.t.

Lemma kickoff_skip_empty (p c : text) (w : world) :
  read_file p w = (inr c, w) -> snd (parse_roadmap c) = [] ->
  exists w', kickoff plan_crew write_crew true (Some p) w = (inr tt, w')
    /\ files w' = files w /\ dirs w' = dirs w
    /\ plan_calls w' = plan_calls w /\ write_calls w' = write_calls w
    /\ BlogState.blog_posts (state w') = []
    /\ BlogState.blog_roadmap (state w') = [].
Proof.
  intros Hr Hp. destruct p as [|a p']; [discriminate|].
  pose proof (fun v => read_file_same _ _ w v Hr) as Hr'.
  destruct w as [st fs ds pc wc lg fid].
  unfold kickoff, flow_init, flow_kickoff, generate_blog_roadmap,
    write_blog_posts, parse_roadmap_file; run_m.
  rewrite Hr' by reflexivity.
  destruct (parse_roadmap c) as [[t g] l]; cbn in Hp; subst l.
  run_m. eexists; split; [reflexivity|]. repeat split.
Qed.

Lemma makedirs_output_ok (w : world) :
  is_dir (lit "output") w = true \/ lookup_file (lit "output") (files w) = None ->
  exists ds, makedirs (lit "output") w = (inr tt, set_dirs ds w)
    /\ is_dir (lit "output") (set_dirs ds w) = true
    /\ (forall d, In d ds -> d = lit "output" \/ In d (dirs w)).
Proof.
  intros H. unfold makedirs. change (walk_dirs (lit "output")) with (@nil text).
  cbn [mkdir_chain]. unfold mkdir_step.
  change (path_error (lit "output")) with (@None exc). cbv iota.
  destruct (is_dir (lit "output") w) eqn:Hd.
  - exists (dirs w). destruct w; split; [reflexivity|]. split; [exact Hd|auto].
  - destruct H as [H | ->]; [discriminate|].
    change (walk_error (lit "output") (walk_dirs (lit "output")) w) with (@None exc).
    change (NAME_MAX <? utf8_len (basename (lit "output"))) with false. cbv iota.
    exists (lit "output" :: dirs w). split; [reflexivity|]. split.
    + unfold is_dir, mem_text. cbn [dirs set_dirs existsb].
      replace (text_eqb (lit "output") (lit "output")) with true; [reflexivity|].
      symmetry; apply text_eqb_spec; reflexivity.
    + intros d [<- | Hd']; auto.
Qed.

Lemma mem_text_false (x : text) (l : list text) :
  mem_text x l = false <-> forall d, In d l -> x <> d.
Proof.
  unfold mem_text. rewrite <- Bool.not_true_iff_false, existsb_exists. split.
  - intros H d Hd ->. apply H. exists d. split; [exact Hd|]. now apply text_eqb_spec.
  - intros H (d & Hd & Heq). apply text_eqb_spec in Heq. exact (H d Hd Heq).
Qed.

Lemma kickoff_plan_empty (rf : option text) (w : world) :
  plan_crew default_title default_goal = inr [] ->
  is_dir (lit "output") w = true \/ lookup_file (lit "output") (files w) = None ->
  is_dir roadmap_path w = false ->
  exists w', kickoff plan_crew write_crew false rf w = (inr tt, w')
    /\ files w' = (roadmap_path, roadmap_content default_title default_goal [])
                  :: files w
    /\ plan_calls w' = plan_calls w ++ [(default_title, default_goal)]
    /\ write_calls w' = write_calls w
    /\ BlogState.blog_posts (state w') = []
    /\ BlogState.blog_roadmap (state w') = [].
Proof.
  intros Hplan Hout Hroad. destruct w as [st fs ds pc wc lg fid].
  unfold kickoff, flow_init, flow_kickoff, generate_blog_roadmap,
    write_blog_posts, call_plan; run_m.
  rewrite Hplan. run_m.
  match goal with |- context [makedirs ?p ?v] =>
    destruct (makedirs_output_ok v) as (ds' & Hm & Ho & Hin); [exact Hout|];
    rewrite Hm end.
  run_m.
  match goal with |- context [write_file ?p ?c ?v] =>
    rewrite (write_roadmap_ok c v) end.
  - run_m. eexists; split; [reflexivity|]. repeat split.
  - exact Ho.
  - unfold is_dir; cbn [dirs]. apply mem_text_false. intros d Hd.
    destruct (Hin d Hd) as [-> | Hd']; [intros Heq; vm_compute in Heq; discriminate|].
    apply mem_text_false with (l := ds); [exact Hroad|exact Hd'].
Qed.

Lemma generate_roadmap_run (w : world) (posts : list BlogPostOutline.t) :
  plan_crew (BlogState.topic (state w)) (BlogState.goal (state w)) = inr posts ->
  is_dir (lit "output") w = true \/ lookup_file (lit "output") (files w) = None ->
  is_dir roadmap_path w = false ->
  exists w', generate_blog_roadmap plan_crew false w = (inr posts, w')
    /\ state w' = with_roadmap posts (state w)
    /\ files w' = (roadmap_path,
                   roadmap_content (BlogState.topic (state w))
                     (BlogState.goal (state w)) posts) :: files w
    /\ is_dir (lit "output") w' = true
    /\ is_dir roadmap_path w' = false
    /\ plan_calls w' = plan_calls w
                       ++ [(BlogState.topic (state w), BlogState.goal (state w))]
    /\ write_calls w' = write_calls w.
Proof.
  intros Hplan Hout Hroad. destruct w as [st fs ds pc wc lg fid]. cbn [state files] in *.
  unfold generate_blog_roadmap, call_plan; run_m.
  rewrite Hplan. run_m.
  match goal with |- context [makedirs ?p ?v] =>
    destruct (makedirs_output_ok v) as (ds' & Hm & Ho & Hin); [exact Hout|];
    rewrite Hm end.
  run_m.
  assert (Hr : is_dir roadmap_path
                 {| state := with_roadmap posts st; files := fs; dirs := ds';
                    plan_calls := pc ++ [(BlogState.topic st, BlogState.goal st)];
                    write_calls := wc; logs := lg; fresh_id := fid |} = false).
  { unfold is_dir; cbn [dirs]. apply mem_text_false. intros d Hd.
    destruct (Hin d Hd) as [-> | Hd']; [intros Heq; vm_compute in Heq; discriminate|].
    apply mem_text_false with (l := ds); [exact Hroad|exact Hd']. }
  match goal with |- context [write_file ?p ?c ?v] =>
    rewrite (write_roadmap_ok c v) end.
  - run_m. eexists; split; [reflexivity|]. repeat split; [exact Ho|exact Hr].
  - exact Ho.
  - exact Hr.
Qed.

End Runs.

(** ** Post file names *)

Lemma post_files_length (i : nat) (outs : list BlogPost.t) :
  List.length (post_files i outs) = List.length outs.
Proof. revert i; induction outs; intros i; simpl; auto. Qed.

Lemma post_files_nth (i : nat) (outs : list BlogPost.t) (n : nat) (out : BlogPost.t) :
  nth_error outs n = Some out ->
  nth_error (post_files i outs) n
  = Some (post_filename (i + n) (BlogPost.title out), BlogPost.content out).
Proof.
  revert i n; induction outs as [|o outs IH]; intros i n H; [destruct n; discriminate|].
  destruct n as [|n]; simpl in *.
  - injection H as ->. now rewrite Nat.add_0_r.
  - rewrite (IH (S i) n H). now rewrite Nat.add_succ_r.
Qed.

Lemma post_files_in (i : nat) (outs : list BlogPost.t) (x : text) :
  In x (map fst (post_files i outs)) -> exists k t, i <= k /\ x = post_filename k t.
Proof.
  revert i; induction outs as [|o outs IH]; intros i H; [destruct H|].
  destruct H as [<-|H].
  - exists i, (BlogPost.title o). split; [lia|reflexivity].
  - destruct (IH (S i) H) as (k & t & Hk & ->). exists k, t. split; [lia|reflexivity].
Qed.

Lemma post_files_nodup (i : nat) (outs : list BlogPost.t) :
  NoDup (map fst (post_files i outs)).
Proof.
  revert i; induction outs as [|o outs IH]; intros i; simpl; constructor; auto.
  intros H. destruct (post_files_in _ _ _ H) as (k & t & Hk & Heq).
  apply post_filename_inj in Heq. lia.
Qed.

Definition post_title_okb (index : nat) (title : text) : bool :=
  negb (existsb is_slash title) && negb (existsb (Ascii.eqb NUL) title)
  && (utf8_len (post_basename index title) <=? NAME_MAX).

Lemma post_title_okb_sound (index : nat) (title : text) :
  post_title_okb index title = true -> post_title_ok index title.
Proof.
  unfold post_title_okb, post_title_ok.
  intros H. apply andb_true_iff in H as [H H3]. apply andb_true_iff in H as [H1 H2].
  apply negb_true_iff in H1, H2. apply Nat.leb_le in H3.
  split; [|split; [|exact H3]]; intros Hin.
  - assert (E : existsb is_slash title = true)
      by (apply existsb_exists; exists "/"%char; split; [exact Hin|reflexivity]).
    congruence.
  - assert (E : existsb (Ascii.eqb NUL) title = true)
      by (apply existsb_exists; exists NUL; split; [exact Hin|reflexivity]).
    congruence.
Qed.

Lemma ex_write_crew_titles (n j : nat) (o : BlogPostOutline.t) :
  nth_error ex_outlines j = Some o ->
  exists out, ex_write_crew n (expected_inputs ex_state o j) = inr out
    /\ post_title_ok j (BlogPost.title out).
Proof.
  intros H. eexists; split; [reflexivity|]. apply post_title_okb_sound.
  destruct j as [|[|j]]; cbn in H; [injection H as <-; vm_compute; reflexivity
    |injection H as <-; vm_compute; reflexivity|].
  destruct j; discriminate.
Qed.

(** ** Prefixes and occurrences *)

Lemma is_prefix_app_inv (q s y : text) :
  List.length s <= List.length q -> is_prefix q (s ++ y) = true ->
  q = s ++ skipn (List.length s) q /\ is_prefix (skipn (List.length s) q) y = true.
Proof.
  revert q; induction s as [|c s IH]; intros q Hl H; [auto|].
  destruct q as [|d q]; simpl in Hl; [lia|]. simpl in H.
  apply andb_true_iff in H as [Hc H]. apply Ascii.eqb_eq in Hc. subst d.
  destruct (IH q ltac:(lia) H) as [H1 H2]. simpl. split; [f_equal; exact H1|exact H2].
Qed.

Lemma is_prefix_long (q s y : text) :
  List.length q <= List.length s -> is_prefix q (s ++ y) = is_prefix q s.
Proof.
  revert s; induction q as [|c q IH]; intros s Hl; [reflexivity|].
  destruct s as [|d s]; simpl in Hl; [lia|]. simpl. rewrite IH by lia. reflexivity.
Qed.

Lemma is_prefix_app_l (q r z : text) :
  is_prefix (q ++ r) z = true -> is_prefix q z = true.
Proof.
  revert z; induction q as [|c q IH]; intros z H; [reflexivity|].
  destruct z as [|d z]; [cbn in H; discriminate|]. simpl in *.
  apply andb_true_iff in H as [Hc H]. rewrite Hc. simpl. now apply IH.
Qed.

Lemma is_prefix_true (q s : text) : is_prefix q s = true -> exists y, s = q ++ y.
Proof.
  revert s; induction q as [|c q IH]; intros s H; [exists s; reflexivity|].
  destruct s as [|d s]; [cbn in H; discriminate|]. simpl in H.
  apply andb_true_iff in H as [Hc H]. apply Ascii.eqb_eq in Hc. subst d.
  destruct (IH s H) as [y ->]. exists y. reflexivity.
Qed.

Lemma prefix_no_nl (q s y : text) :
  ~ In NL q -> is_prefix q (s ++ NL :: y) = true -> is_prefix q s = true.
Proof.
  revert s; induction q as [|c q IH]; intros s Hq H; [reflexivity|].
  destruct s as [|d s]; cbn [is_prefix app] in H.
  - apply andb_true_iff in H as [Hc _]. apply Ascii.eqb_eq in Hc. subst c.
    exfalso; apply Hq; left; reflexivity.
  - apply andb_true_iff in H as [Hc H]. cbn [is_prefix]. rewrite Hc. cbn [andb].
    apply IH; [intros Hi; apply Hq; right; exact Hi|exact H].
Qed.

Lemma contains_skipn (q s : text) (n : nat) :
  is_prefix q (skipn n s) = true -> contains q s = true.
Proof.
  revert s; induction n as [|n IH]; intros s H.
  - destruct s; simpl in *; rewrite H; reflexivity.
  - destruct s as [|c s].
    + simpl in H. destruct q; [reflexivity|discriminate].
    + simpl. apply orb_true_iff. right. apply IH. exact H.
Qed.

Lemma contains_app_l (q a b : text) :
  contains q a = true -> contains q (a ++ b) = true.
Proof.
  induction a as [|c a IH]; intros H.
  - simpl in H. destruct q; [destruct b; reflexivity|discriminate].
  - cbn [contains app] in *. apply orb_true_iff in H as [H|H].
    + apply is_prefix_true in H as [y Hy].
      rewrite app_comm_cons, Hy, <- app_assoc, is_prefix_app. reflexivity.
    + rewrite IH by exact H. apply orb_true_r.
Qed.

(** An occurrence of a newline-free [q] in [a ++ NL :: b] lies in [a] or in
    [b]. *)
Lemma contains_nl_split (q a b : text) :
  ~ In NL q -> q <> [] -> contains q (a ++ NL :: b) = contains q a || contains q b.
Proof.
  intros Hq Hne. induction a as [|c a IH].
  - destruct q as [|d q]; [congruence|]. simpl.
    destruct (Ascii.eqb_spec d NL) as [->|_]; [exfalso; apply Hq; left; reflexivity|].
    reflexivity.
  - cbn [app contains]. rewrite IH.
    destruct (is_prefix q (c :: a ++ NL :: b)) eqn:E.
    + apply (prefix_no_nl q (c :: a) b Hq) in E. now rewrite E.
    + destruct (is_prefix q (c :: a)) eqn:E'; [|reflexivity].
      apply is_prefix_true in E' as [y Hy].
      rewrite app_comm_cons, Hy, <- app_assoc, is_prefix_app in E. discriminate.
Qed.

(** No occurrence of [q] starts in [x] when [q] does not occur in [x] and no
    proper suffix of [q] begins the text [y] that follows. *)
Lemma no_straddle (q x y : text) :
  contains q x = false ->
  (forall j, 1 <= j < List.length q -> is_prefix (skipn j q) y = false) ->
  forall n, n < List.length x -> is_prefix q (skipn n x ++ y) = false.
Proof.
  intros Hx Hb n Hn. apply Bool.not_true_iff_false. intros H.
  destruct (Nat.le_gt_cases (List.length q) (List.length (skipn n x))) as [Hl|Hl].
  - rewrite is_prefix_long in H by exact Hl.
    apply contains_skipn in H. congruence.
  - destruct (is_prefix_app_inv q (skipn n x) y ltac:(lia) H) as [_ H2].
    rewrite Hb in H2; [discriminate|]. rewrite length_skipn in *. lia.
Qed.

(** Every occurrence of a newline-free [q] in a text ending in a newline
    lies inside it. *)
Lemma no_occurrence_nl (q x y : text) :
  ~ In NL q -> contains q (x ++ [NL]) = false ->
  forall n, n < S (List.length x) -> is_prefix q (skipn n (x ++ [NL]) ++ y) = false.
Proof.
  intros Hq Hx n Hn. apply Bool.not_true_iff_false. intros H.
  rewrite skipn_app in H. replace (n - List.length x) with 0 in H by lia.
  rewrite <- app_assoc in H. simpl in H.
  apply prefix_no_nl in H; [|exact Hq].
  apply contains_skipn in H. rewrite (contains_app_l _ _ [NL] H) in Hx. discriminate.
Qed.


(** ** The matchers *)

Lemma re_search_skip {A} (m : text -> option A) (x y : text) :
  (forall n, n < List.length x -> m (skipn n x ++ y) = None) ->
  re_search m (x ++ y) = re_search m y.
Proof.
  induction x as [|c x IH]; intros H; [reflexivity|].
  cbn [app re_search]. pose proof (H 0 ltac:(simpl; lia)) as H0; cbn [skipn firstn app] in H0; rewrite H0.
  apply IH. intros n Hn. apply (H (S n)). simpl; lia.
Qed.

Lemma re_search_none {A} (m : text -> option A) (s : text) :
  (forall n, n <= List.length s -> m (skipn n s) = None) -> re_search m s = None.
Proof.
  induction s as [|c s IH]; intros H; cbn [re_search].
  - pose proof (H 0 ltac:(simpl; lia)) as H0; cbn [skipn firstn app] in H0; rewrite H0. reflexivity.
  - pose proof (H 0 ltac:(simpl; lia)) as H0; cbn [skipn firstn app] in H0; rewrite H0. apply IH. intros n Hn. apply (H (S n)). simpl; lia.
Qed.

Lemma re_search_first {A} (m : text -> option A) (s : text) (v : A) :
  m s = Some v -> re_search m s = Some v.
Proof. intros H. destruct s; cbn [re_search]; rewrite H; reflexivity. Qed.

Section Quantifiers.
Context {A : Type}.

Lemma lazy_star_skip (p : ascii -> bool) (x y : text) (k : text -> text -> option A) :
  Forall (fun c => p c = true) x ->
  (forall n, n < List.length x -> k (firstn n x) (skipn n x ++ y) = None) ->
  lazy_star p (x ++ y) k = lazy_star p y (fun g r => k (x ++ g) r).
Proof.
  revert k; induction x as [|c x IH]; intros k Hp H; [reflexivity|].
  inversion Hp as [|? ? Hc Hx]; subst.
  cbn [app lazy_star]. pose proof (H 0 ltac:(simpl; lia)) as H0; cbn [skipn firstn app] in H0; rewrite H0. rewrite Hc.
  rewrite IH; [reflexivity|exact Hx|].
  intros n Hn. apply (H (S n)). simpl; lia.
Qed.

Lemma lazy_star_now (p : ascii -> bool) (y : text) (k : text -> text -> option A)
    (v : A) :
  k [] y = Some v -> lazy_star p y k = Some v.
Proof. intros H. destruct y; cbn [lazy_star]; rewrite H; reflexivity. Qed.


Lemma greedy_star_run (p : ascii -> bool) (x y : text) (k : text -> option A) (v : A) :
  Forall (fun c => p c = true) x ->
  match y with [] => True | c :: _ => p c = false end ->
  k y = Some v -> greedy_star p (x ++ y) k = Some v.
Proof.
  intros Hp Hy Hk. induction Hp as [|c x Hc Hx IH].
  - destruct y as [|c y]; cbn [app greedy_star]; [exact Hk|]. now rewrite Hy.
  - cbn [app greedy_star]. rewrite Hc, IH. reflexivity.
Qed.

End Quantifiers.

Lemma post_at_no_heading (s : text) :
  is_prefix (lit "### ") s = false -> post_at s = None.
Proof. intros H. unfold post_at. now rewrite H. Qed.

Lemma finditer_skip (x y : text) (f : nat) :
  (forall n, n < List.length x -> post_at (skipn n x ++ y) = None) ->
  List.length x <= f ->
  finditer_fuel f (x ++ y) = finditer_fuel (f - List.length x) y.
Proof.
  revert f; induction x as [|c x IH]; intros f H Hf; [now rewrite Nat.sub_0_r|].
  destruct f as [|f]; [simpl in Hf; lia|].
  cbn [app finditer_fuel]. pose proof (H 0 ltac:(simpl; lia)) as H0; cbn [skipn firstn app] in H0; rewrite H0.
  cbn [List.length Nat.sub]. apply IH; [|simpl in Hf; lia].
  intros n Hn. apply (H (S n)). simpl; lia.
Qed.

Lemma finditer_none (s : text) (f : nat) :
  (forall n, n <= List.length s -> post_at (skipn n s) = None) ->
  finditer_fuel f s = [].
Proof.
  revert s; induction f as [|f IH]; intros s H; [reflexivity|].
  cbn [finditer_fuel]. pose proof (H 0 ltac:(lia)) as H0; cbn [skipn] in H0; rewrite H0.
  destruct s as [|c s]; [reflexivity|]. apply IH.
  intros n Hn. apply (H (S n)). simpl; lia.
Qed.



(** ** [strip] *)

Lemma lstrip_head (s r : text) (c : ascii) : lstrip s = c :: r -> is_space c = false.
Proof.
  induction s as [|d s IH]; intros H; [discriminate|]. cbn [lstrip] in H.
  destruct (is_space d) eqn:Hd; [exact (IH H)|]. injection H as <- _. exact Hd.
Qed.

Lemma strip_last (t t0 : text) (c : ascii) :
  strip t = t -> t = t0 ++ [c] -> is_space c = false.
Proof.
  unfold strip, rstrip. intros H Ht.
  destruct (lstrip (rev (lstrip t))) as [|d u] eqn:E.
  - rewrite <- H in Ht. simpl in Ht. destruct t0; discriminate.
  - rewrite <- H in Ht. simpl in Ht. apply app_inj_tail in Ht as [_ ->].
    exact (lstrip_head _ _ _ E).
Qed.

Lemma lstrip_app (x y : text) :
  lstrip (x ++ y) = match lstrip x with [] => lstrip y | u => u ++ y end.
Proof.
  induction x as [|c x IH]; [reflexivity|]. cbn [app lstrip].
  destruct (is_space c); [exact IH|reflexivity].
Qed.

Lemma strip_snoc_space (x : text) (c : ascii) :
  is_space c = true -> strip (x ++ [c]) = strip x.
Proof.
  intros Hc. unfold strip. rewrite lstrip_app.
  destruct (lstrip x) as [|d u] eqn:E.
  - cbn [lstrip]. rewrite Hc. reflexivity.
  - unfold rstrip. rewrite rev_app_distr. cbn [rev app lstrip]. rewrite Hc. reflexivity.
Qed.

(** ** Parsing documents with missing markers *)




(** ** Reading back the roadmap document *)


Lemma misses_app {A} (m : text -> option A) (a b y : text) :
  misses m a (b ++ y) -> misses m b y -> misses m (a ++ b) y.
Proof.
  intros Ha Hb n Hn. rewrite skipn_app.
  destruct (Nat.lt_ge_cases n (List.length a)) as [Hl|Hl].
  - replace (n - List.length a) with 0 by lia. rewrite <- app_assoc. now apply Ha.
  - rewrite (skipn_all2 a) by lia. apply Hb. rewrite length_app in Hn. lia.
Qed.

Lemma misses_nl_free {A} (m : text -> option A) (q x y : text) :
  ~ In NL q -> contains q x = false ->
  (forall r, is_prefix q r = false -> m r = None) -> misses m x (NL :: y).
Proof.
  intros Hq Hx Hm n Hn. apply Hm. apply Bool.not_true_iff_false. intros H.
  apply prefix_no_nl in H; [|exact Hq]. apply contains_skipn in H. congruence.
Qed.

Lemma in_contains (c : ascii) (x : text) : In c x -> contains [c] x = true.
Proof.
  induction x as [|d x IH]; intros H; [destruct H|]. cbn [contains].
  destruct H as [->|H].
  - cbn [is_prefix]. now rewrite Ascii.eqb_refl.
  - rewrite IH by exact H. apply orb_true_r.
Qed.

Lemma contains_cons (q : text) (c : ascii) (x : text) :
  contains q x = true -> contains q (c :: x) = true.
Proof. intros H. cbn [contains]. rewrite H. apply orb_true_r. Qed.


Lemma topic_at_match (T rest : text) :
  T <> [] -> contains [NL] T = false ->
  topic_at (lit "## Topic: " ++ T ++ [NL; NL] ++ rest) = Some T.
Proof.
  intros Hne Hnl. unfold topic_at. rewrite is_prefix_app.
  change (skipn 10 (lit "## Topic: " ++ ?z)) with z.
  destruct T as [|a T']; [congruence|].
  assert (Hdot : forall c, In c (a :: T') -> dot c = true).
  { intros c Hc. unfold dot. destruct (Ascii.eqb_spec c NL) as [->|_]; [|reflexivity].
    apply in_contains in Hc. congruence. }
  cbn [lazy_plus app]. rewrite (Hdot a) by (left; reflexivity).
  rewrite lazy_star_skip.
  - rewrite (lazy_star_now _ _ _ (a :: T')); [reflexivity|].
    rewrite app_nil_r. reflexivity.
  - apply Forall_forall. intros c Hc. apply Hdot. right; exact Hc.
  - intros n Hn. destruct (skipn n T') as [|e s] eqn:E.
    + apply (f_equal (@List.length ascii)) in E. rewrite length_skipn in E.
      cbn in E. lia.
    + assert (He : e <> NL).
      { intros ->. assert (Hi : In NL (a :: T')).
        { right. rewrite <- (firstn_skipn n T'). apply in_or_app. right.
          rewrite E. left. reflexivity. }
        apply in_contains in Hi. congruence. }
      cbn [app is_prefix at_end].
      replace (Ascii.eqb NL e) with false
        by (symmetry; apply Ascii.eqb_neq; congruence).
      destruct s; reflexivity.
Qed.

Lemma goal_at_match (G rest : text) :
  contains ([NL; NL] ++ lit "## Planned Posts") G = false ->
  goal_at (lit "## Goal" ++ [NL] ++ G ++ [NL; NL] ++ lit "## Planned Posts" ++ rest)
  = Some G.
Proof.
  intros HG. unfold goal_at.
  rewrite app_assoc, is_prefix_app.
  change (skipn 8 ((lit "## Goal" ++ [NL]) ++ ?z)) with z.
  rewrite (app_assoc [NL; NL]).
  rewrite lazy_star_skip.
  - apply lazy_star_now. rewrite is_prefix_app, app_nil_r. reflexivity.
  - apply Forall_forall. reflexivity.
  - intros n Hn. rewrite (no_straddle _ G); [reflexivity|exact HG| |exact Hn].
    intros j Hj. cbn in Hj.
    do 18 (destruct j as [|j]; [first [reflexivity | lia]|]); lia.
Qed.


Lemma post_at_block (i : nat) (t u : text) (v : text * text * text) :
  t <> [] -> strip t = t -> contains [NL; NL] t = false ->
  lazy_star dot_all u
    (fun desc r3 => if post_lookahead r3 then Some (t, desc, r3) else None) = Some v ->
  post_at (lit "### " ++ str_nat i ++ lit ". " ++ t ++ [NL; NL] ++ u) = Some v.
Proof.
  intros Ht Hs Hc Hu. unfold post_at. rewrite is_prefix_app.
  change (skipn 4 (lit "### " ++ ?z)) with z.
  destruct (str_nat i) as [|d ds] eqn:Ek; [exact (False_ind _ (str_nat_nonempty i Ek))|].
  pose proof (str_nat_digits i) as Hdig. rewrite Ek in Hdig.
  inversion Hdig as [|? ? Hd Hds]; subst.
  cbn [greedy_plus app]. rewrite Hd.
  apply (greedy_star_run _ ds); [exact Hds|reflexivity|].
  rewrite is_prefix_app. change (skipn 2 (lit ". " ++ ?z)) with z.
  destruct t as [|a t']; [congruence|]. cbn [lazy_plus app dot_all].
  rewrite (lazy_star_skip _ t').
  - apply lazy_star_now. cbv beta. rewrite app_nil_r.
    cbn [app is_prefix]. rewrite Ascii.eqb_refl. cbn [andb].
    change (skipn 2 (NL :: NL :: u)) with u. exact Hu.
  - apply Forall_forall. reflexivity.
  - intros n Hn. cbv beta.
    assert (Hp : is_prefix [NL; NL] (skipn n t' ++ [NL; NL] ++ u) = false).
    { destruct (skipn n t') as [|e s] eqn:E.
      - apply (f_equal (@List.length ascii)) in E. rewrite length_skipn in E.
        cbn in E. lia.
      - destruct s as [|b s].
        + assert (He : is_space e = false).
          { apply (strip_last (a :: t') (a :: firstn n t')); [exact Hs|].
            rewrite <- (firstn_skipn n t') at 1. rewrite E. reflexivity. }
          cbn [app is_prefix].
          destruct (Ascii.eqb_spec NL e) as [<-|_]; [discriminate|reflexivity].
        + rewrite is_prefix_long by (cbn; lia).
          apply Bool.not_true_iff_false. intros H.
          rewrite <- E in H. apply contains_skipn in H.
          apply (contains_cons _ a) in H. congruence. }
    cbn [app] in Hp. rewrite Hp. reflexivity.
Qed.

Lemma desc_skip (t d z : text) :
  contains ([NL; NL] ++ lit "###") d = false ->
  lazy_star dot_all (d ++ [NL; NL] ++ z)
    (fun desc r3 => if post_lookahead r3 then Some (t, desc, r3) else None)
  = lazy_star dot_all ([NL; NL] ++ z)
      (fun g r => if post_lookahead r then Some (t, d ++ g, r) else None).
Proof.
  intros Hd. rewrite lazy_star_skip; [reflexivity|apply Forall_forall; reflexivity|].
  intros n Hn. cbv beta.
  assert (Hl : post_lookahead (skipn n d ++ [NL; NL] ++ z) = false).
  { unfold post_lookahead.
    replace (is_prefix ([NL; NL] ++ lit "### ") (skipn n d ++ [NL; NL] ++ z)) with false.
    - destruct (skipn n d) as [|e s] eqn:E.
      + apply (f_equal (@List.length ascii)) in E. rewrite length_skipn in E.
        cbn in E. lia.
      + destruct s; reflexivity.
    - symmetry. apply Bool.not_true_iff_false. intros H.
      change ([NL; NL] ++ lit "### ") with (([NL; NL] ++ lit "###") ++ lit " ") in H.
      apply is_prefix_app_l in H. revert H. apply Bool.not_true_iff_false.
      apply no_straddle; [exact Hd| |exact Hn].
      intros j Hj. cbn in Hj.
      do 5 (destruct j as [|j]; [first [reflexivity | lia]|]); lia. }
  rewrite Hl. reflexivity.
Qed.

Lemma lookahead_next (j : nat) (w : text) :
  post_lookahead ([NL; NL] ++ lit "### " ++ str_nat j ++ lit "." ++ w) = true.
Proof.
  unfold post_lookahead. rewrite app_assoc, is_prefix_app.
  change (skipn 6 (([NL; NL] ++ lit "### ") ++ ?z)) with z.
  destruct (str_nat j) as [|d ds] eqn:Ek; [exact (False_ind _ (str_nat_nonempty j Ek))|].
  pose proof (str_nat_digits j) as Hdig. rewrite Ek in Hdig.
  inversion Hdig as [|? ? Hd Hds]; subst.
  cbn [greedy_plus app]. rewrite Hd.
  rewrite (greedy_star_run _ ds _ _ tt Hds); [reflexivity|reflexivity|].
  rewrite is_prefix_app. reflexivity.
Qed.


Lemma finditer_blocks (L : list BlogPostOutline.t) (i f : nat) :
  Forall outline_ok L -> List.length (roadmap_posts i L) < f ->
  map (fun '(t, d) => BlogPostOutline.mk (strip t) (strip d))
    (finditer_fuel f (roadmap_posts i L)) = L.
Proof.
  revert i f. induction L as [|o L IH]; intros i f HL Hf.
  - destruct f; reflexivity.
  - inversion HL as [|? ? Ho HL']; subst.
    destruct o as [t d]. destruct Ho as (Ht & Hts & Htc & Hds & Hdc).
    cbn [BlogPostOutline.title BlogPostOutline.description] in *.
    destruct f as [|f]; [lia|].
    cbn [roadmap_posts BlogPostOutline.title BlogPostOutline.description] in *.
    destruct L as [|o' L'].
    + cbn [roadmap_posts finditer_fuel].
      rewrite (post_at_block i t _ (t, d ++ [NL], [NL])); [|exact Ht|exact Hts|exact Htc|].
      * cbn [map].
        assert (Hf' : finditer_fuel f [NL] = []) by (destruct f as [|[|f]]; reflexivity).
        rewrite Hf'. rewrite strip_snoc_space by reflexivity. rewrite Hts, Hds. reflexivity.
      * rewrite desc_skip by exact Hdc. reflexivity.
    + remember (o' :: L') as L.
      assert (Hz : exists w, roadmap_posts (S i) L = lit "### " ++ str_nat (S i) ++ lit "." ++ w).
      { subst L. cbn [roadmap_posts]. eexists. reflexivity. }
      destruct Hz as [w Hw].
      cbn [finditer_fuel].
      rewrite (post_at_block i t _ (t, d, [NL; NL] ++ roadmap_posts (S i) L));
        [|exact Ht|exact Hts|exact Htc|].
      * cbn [map].
        rewrite !length_app in Hf. cbn [List.length] in Hf.
        destruct f as [|[|f]]; [lia|lia|].
        rewrite finditer_skip; [|intros [|[|n]] Hn; [reflexivity|reflexivity|cbn in Hn; lia]
                                |cbn; lia].
        replace (S (S f) - List.length [NL; NL]) with f by (cbn; lia).
        rewrite Hts, Hds.
        rewrite (IH (S i) f); [reflexivity|exact HL'|lia].
      * rewrite desc_skip by exact Hdc. apply lazy_star_now. cbv beta.
        rewrite Hw, lookahead_next, app_nil_r. reflexivity.
Qed.

Ltac misses_lit :=
  let n := fresh "n" in let Hn := fresh "Hn" in
  unfold misses; intros n Hn; cbn in Hn;
  repeat (destruct n as [|n]; [reflexivity|]; try (exfalso; lia)).

Ltac no_nl := let H := fresh "H" in
  intros H; cbn in H; repeat destruct H as [H|H]; try discriminate; exact H.

Lemma roadmap_topic (T G : text) (L : list BlogPostOutline.t) :
  T <> [] -> contains [NL] T = false ->
  re_search topic_at (roadmap_content T G L) = Some T.
Proof.
  intros Hne Hnl. unfold roadmap_content.
  rewrite (app_assoc (lit "# Blog Series Roadmap")).
  rewrite re_search_skip by (apply misses_app; misses_lit).
  apply re_search_first. apply topic_at_match; assumption.
Qed.

Lemma roadmap_goal (T G : text) (L : list BlogPostOutline.t) :
  contains (lit "## Goal") T = false ->
  contains ([NL; NL] ++ lit "## Planned Posts") G = false ->
  re_search goal_at (roadmap_content T G L) = Some G.
Proof.
  intros HT HG. unfold roadmap_content.
  set (R := lit "## Goal" ++ [NL] ++ G ++ _).
  replace (lit "# Blog Series Roadmap" ++ [NL; NL] ++ lit "## Topic: " ++ T ++ [NL; NL] ++ R)
    with ((lit "# Blog Series Roadmap" ++ [NL; NL] ++ lit "## Topic: " ++ T ++ [NL; NL]) ++ R)
    by (rewrite <- !app_assoc; reflexivity).
  rewrite re_search_skip.
  - apply re_search_first. apply goal_at_match. exact HG.
  - repeat apply misses_app; rewrite <- ?app_assoc; try solve [misses_lit].
    apply (misses_nl_free _ (lit "## Goal")); [no_nl|exact HT|].
    intros r Hr. unfold goal_at.
    destruct (is_prefix (lit "## Goal" ++ [NL]) r) eqn:E; [|reflexivity].
    apply is_prefix_app_l in E. congruence.
Qed.

Lemma roadmap_scan (T G : text) (L : list BlogPostOutline.t) :
  contains (lit "### ") T = false -> contains (lit "### ") G = false ->
  Forall outline_ok L ->
  map (fun '(t, d) => BlogPostOutline.mk (strip t) (strip d))
    (post_sections (roadmap_content T G L)) = L.
Proof.
  intros HT HG HL. unfold post_sections, roadmap_content.
  set (R := roadmap_posts 1 L).
  set (P := lit "# Blog Series Roadmap" ++ [NL; NL] ++ lit "## Topic: " ++ T ++ [NL; NL]
            ++ lit "## Goal" ++ [NL] ++ G ++ [NL; NL] ++ lit "## Planned Posts" ++ [NL; NL]).
  assert (E : lit "# Blog Series Roadmap" ++ [NL; NL] ++ lit "## Topic: " ++ T ++ [NL; NL]
            ++ lit "## Goal" ++ [NL] ++ G ++ [NL; NL] ++ lit "## Planned Posts" ++ [NL; NL]
            ++ R = P ++ R) by (unfold P; rewrite <- !app_assoc; reflexivity).
  rewrite E. rewrite finditer_skip.
  - apply finditer_blocks; [exact HL|]. rewrite length_app. change (roadmap_posts 1 L) with R. lia.
  - change (misses post_at P R). unfold P.
    repeat apply misses_app; rewrite <- ?app_assoc; try solve [misses_lit].
    + apply (misses_nl_free _ (lit "### ")); [no_nl|exact HT|apply post_at_no_heading].
    + apply (misses_nl_free _ (lit "### ")); [no_nl|exact HG|apply post_at_no_heading].
  - rewrite length_app. lia.
Qed.

(** * The claims *)

Lemma universal_newlines_id (s : text) : ~ In CR s -> universal_newlines s = s.
Proof.
  induction s as [|c s IH]; intros H; [reflexivity|]. cbn [universal_newlines].
  replace (Ascii.eqb c CR) with false
    by (symmetry; apply Ascii.eqb_neq; intros ->; apply H; left; reflexivity).
  f_equal. apply IH. intros Hi; apply H; right; exact Hi.
Qed.

Lemma not_in_app (x : ascii) (a b : text) : ~ In x a -> ~ In x b -> ~ In x (a ++ b).
Proof. intros Ha Hb H. apply in_app_iff in H as [H|H]; auto. Qed.

Lemma str_nat_no_cr (n : nat) : ~ In CR (str_nat n).
Proof.
  unfold str_nat. generalize (Nat.to_uint n) as d. intros d H.
  induction d; cbn [uint_text In] in H; try exact H;
    (destruct H as [H|H]; [unfold CR in H; discriminate H|exact (IHd H)]).
Qed.

Ltac no_cr_lit :=
  let H := fresh in intros H; cbv in H;
  repeat (destruct H as [H|H]; [discriminate H|]); exact H.

Lemma roadmap_posts_no_cr (i : nat) (L : list BlogPostOutline.t) :
  Forall (fun o => ~ In CR (BlogPostOutline.title o)
                  /\ ~ In CR (BlogPostOutline.description o)) L ->
  ~ In CR (roadmap_posts i L).
Proof.
  revert i; induction L as [|o L IH]; intros i HL; [intros []|].
  inversion HL as [|? ? [Ht Hd] HL']; subst.
  cbn [roadmap_posts].
  repeat apply not_in_app;
    first [exact Ht | exact Hd | apply str_nat_no_cr | apply IH; exact HL' | no_cr_lit].
Qed.

Lemma roadmap_content_no_cr (T G : text) (L : list BlogPostOutline.t) :
  cr_free T G L -> ~ In CR (roadmap_content T G L).
Proof.
  intros (HT & HG & HL). unfold roadmap_content.
  repeat apply not_in_app;
    first [exact HT | exact HG | apply roadmap_posts_no_cr; exact HL | no_cr_lit].
Qed.

Lemma read_written_roadmap (c : text) (w : world) :
  is_dir (lit "output") w = true -> is_dir roadmap_path w = false ->
  lookup_file roadmap_path (files w) = Some c ->
  read_file roadmap_path w = (inr (universal_newlines c), w).
Proof.
  intros Ho Hr Hl. unfold read_file.
  change (path_error roadmap_path) with (@None exc).
  change (walk_dirs roadmap_path) with [lit "output"].
  cbn [walk_error]. rewrite Ho, Hr, Hl. reflexivity.
Qed.

Lemma roadmap_content_parse (T G : text) (L : list BlogPostOutline.t) :
  roundtrip_ok T G L -> parse_roadmap (roadmap_content T G L) = (T, G, L).
Proof.
  intros (Hne & Hts & Hnl & Htg & Htp & Hgs & Hgp & Hgq & HL).
  unfold parse_roadmap. cbv zeta.
  rewrite roadmap_topic by assumption.
  rewrite roadmap_goal by assumption.
  rewrite roadmap_scan by assumption.
  rewrite Hts, Hgs. reflexivity.
Qed.

Section Claims.
Variable plan_crew : text -> text -> exc + list BlogPostOutline.t.
Variable write_crew : nat -> WriteInputs.t -> exc + BlogPost.t.

(** C5 (writer input bindings): the [n]-th call of the writing crew made
    by [write_blog_posts] (counting from the calls made before phase 2)
    receives the goal and topic of the flow state, the title and
    description of the [n]-th outline, the whole roadmap as plain pairs,
    the index [n], the index [n + 1] and the number of outlines. *)
Theorem writer_input_bindings (w0 : world) (n : nat) (inp : WriteInputs.t) :
  nth_error (write_calls (snd (write_blog_posts write_crew w0)))
    (List.length (write_calls w0) + n) = Some inp ->
  let st0 := state w0 in
  let R := BlogState.blog_roadmap st0 in
  exists o, nth_error R n = Some o
    /\ inp = WriteInputs.mk (BlogState.goal st0) (BlogState.topic st0)
               (BlogPostOutline.title o) (BlogPostOutline.description o)
               (map outline_dump R) n (n + 1) (List.length R).
Proof.
  intros H st0 R.
  destruct (phase2_calls write_crew w0 _ (or_intror eq_refl) n inp H)
    as (o & Ho & ->).
  exists o. split; [exact Ho|reflexivity].
Qed.

(** C7 (posts follow the roadmap): starting phase 2 with no posts, at
    every point of [write_blog_posts] there are at most as many posts as
    outlines, and the post at index [n] is the output of the writing call
    made for outline [n] of the roadmap, with that outline's inputs. *)
Theorem posts_correspond_to_roadmap (w0 w : world) :
  BlogState.blog_posts (state w0) = [] ->
  phase2_point write_crew w0 w ->
  List.length (BlogState.blog_posts (state w))
    <= List.length (BlogState.blog_roadmap (state w0))
  /\ forall n p, nth_error (BlogState.blog_posts (state w)) n = Some p ->
       exists o, nth_error (BlogState.blog_roadmap (state w0)) n = Some o
         /\ nth_error (write_calls w) (List.length (write_calls w0) + n)
            = Some (expected_inputs (state w0) o n)
         /\ write_crew (List.length (write_calls w0) + n)
              (expected_inputs (state w0) o n) = inr p.
Proof.
  intros H0 Hw. destruct (phase2_recorded write_crew w0 w H0 Hw) as (Hl & Hrec).
  split; [exact Hl|]. intros n p Hn.
  destruct (Hrec n p Hn) as (o & Ho & Hc & Hcr & _). eauto.
Qed.

(** C9 (a post is recorded only once its file is written): starting
    phase 2 with no posts, at every point of [write_blog_posts], also
    after a failure, the file of every recorded post holds its content. *)
Theorem recorded_posts_persisted (w0 w : world) :
  BlogState.blog_posts (state w0) = [] ->
  phase2_point write_crew w0 w ->
  forall n p, nth_error (BlogState.blog_posts (state w)) n = Some p ->
    lookup_file (post_filename n (BlogPost.title p)) (files w)
    = Some (BlogPost.content p).
Proof.
  intros H0 Hw n p Hn. destruct (phase2_recorded write_crew w0 w H0 Hw) as (_ & Hrec).
  destruct (Hrec n p Hn) as (o & _ & _ & _ & Hf). exact Hf.
Qed.

(** C2 (all posts written), as the code has it: starting phase 2 with no
    posts, with the [output] directory present and no directory named like
    a post file, and a writing crew that succeeds on every call with
    titles that pass [post_title_ok] (no ['/'], no NUL, a file name of at
    most 255 bytes in UTF-8), [write_blog_posts] returns one post per outline,
    in roadmap order, records exactly these posts, and adds exactly one
    file per post to disk, with pairwise distinct names: the file of the
    post at index [n] is [output/Blog_Post_<n+1>_<title>.md] and holds its
    content. *)
Theorem all_posts_written (w0 : world) :
  BlogState.blog_posts (state w0) = [] ->
  output_ready w0 ->
  (forall n o, nth_error (BlogState.blog_roadmap (state w0)) n = Some o ->
     exists out, write_crew (List.length (write_calls w0) + n)
                   (expected_inputs (state w0) o n) = inr out
       /\ post_title_ok n (BlogPost.title out)) ->
  let R := BlogState.blog_roadmap (state w0) in
  exists outs w', write_blog_posts write_crew w0 = (inr outs, w')
    /\ List.length outs = List.length R
    /\ (forall n out, nth_error outs n = Some out ->
          exists o, nth_error R n = Some o
            /\ write_crew (List.length (write_calls w0) + n)
                 (expected_inputs (state w0) o n) = inr out)
    /\ BlogState.blog_posts (state w') = outs
    /\ files w' = rev (post_files 0 outs) ++ files w0
    /\ NoDup (map fst (post_files 0 outs))
    /\ (forall n out, nth_error outs n = Some out ->
          nth_error (post_files 0 outs) n
          = Some (post_filename n (BlogPost.title out), BlogPost.content out)).
Proof.
  intros H0 Hready Hcrew R.
  set (w1 := set_logs (logs w0 ++ [(INFO, lit "Writing Blog Posts")]) w0).
  destruct (write_posts_loop_ok write_crew (state w0) R 0 w1)
    as (outs & w' & Hl & Hlen & Hnth & Hst & Hf & _ & _).
  - symmetry; apply with_posts_posts.
  - exact Hready.
  - intros j o Hj. exact (Hcrew j o Hj).
  - rewrite write_blog_posts_split, write_blog_posts_prefix_start, firstn_all.
    fold R. fold w1. rewrite Hl.
    assert (Hp : BlogState.blog_posts (state w') = outs).
    { rewrite Hst, blog_posts_with_posts. cbn [w1 state set_logs]. now rewrite H0. }
    rewrite Hp. eexists; eexists. split; [reflexivity|].
    split; [exact Hlen|]. split; [exact Hnth|].
    split; [exact Hp|]. split; [exact Hf|]. split; [apply post_files_nodup|].
    intros n out Hn. exact (post_files_nth 0 outs n out Hn).
Qed.

(** C3 (stop at the first failed post), as the code has it: starting
    phase 2 with no posts, with the [output] directory present and no
    directory named like a post file, if the writing crew succeeds (with
    titles that pass [post_title_ok]) on the calls for indices [0 .. k-1] and raises
    [e] on the call for index [k < N], then [write_blog_posts] raises [e]
    itself (nothing is added to it), after exactly [k + 1] writing calls;
    exactly the [k] earlier posts are recorded and exactly their [k]
    files were added. *)
Theorem stops_at_failed_post (w0 : world) (k : nat) (e : exc) :
  BlogState.blog_posts (state w0) = [] ->
  output_ready w0 ->
  k < List.length (BlogState.blog_roadmap (state w0)) ->
  (forall n o, n < k -> nth_error (BlogState.blog_roadmap (state w0)) n = Some o ->
     exists out, write_crew (List.length (write_calls w0) + n)
                   (expected_inputs (state w0) o n) = inr out
       /\ post_title_ok n (BlogPost.title out)) ->
  (forall inp, write_crew (List.length (write_calls w0) + k) inp = inl e) ->
  let R := BlogState.blog_roadmap (state w0) in
  exists outs w', write_blog_posts write_crew w0 = (inl e, w')
    /\ List.length outs = k
    /\ (forall n out, nth_error outs n = Some out ->
          exists o, nth_error R n = Some o
            /\ write_crew (List.length (write_calls w0) + n)
                 (expected_inputs (state w0) o n) = inr out)
    /\ BlogState.blog_posts (state w') = outs
    /\ files w' = rev (post_files 0 outs) ++ files w0
    /\ List.length (write_calls w') = List.length (write_calls w0) + k + 1.
Proof.
  intros H0 Hready Hk Hok Hfail R.
  destruct (nth_error R k) as [o|] eqn:Ho;
    [|apply nth_error_None in Ho; unfold R in Ho; lia].
  destruct (nth_error_split R k Ho) as (l1 & l2 & HR & Hl1).
  set (w1 := set_logs (logs w0 ++ [(INFO, lit "Writing Blog Posts")]) w0).
  destruct (write_posts_loop_ok write_crew (state w0) l1 0 w1)
    as (outs & w2 & Hl & Hlen & Hnth & Hst & Hf & Hd & Hc).
  - symmetry; apply with_posts_posts.
  - exact Hready.
  - intros j o' Hj.
    assert (Hjk : j < k) by (rewrite <- Hl1; apply nth_error_Some; congruence).
    apply (Hok j o' Hjk). fold R. rewrite HR, nth_error_app1 by lia. exact Hj.
  - destruct (write_single_post write_crew o k w2) as [r w3] eqn:Hs.
    destruct (write_single_post_cases write_crew o k w2 w3 r Hs)
      as (Hst3 & _ & _ & Hc3 & Hcase).
    cbn [w1 write_calls set_logs] in Hc.
    assert (Hr : r = inl e /\ files w3 = files w2).
    { rewrite Hc, Hl1, Hfail in Hcase.
      destruct Hcase as [(e' & He' & -> & Hf3)|[(out & e' & He' & _)|(out & He' & _)]];
        try discriminate.
      injection He' as <-. auto. }
    destruct Hr as [-> Hf3].
    assert (Hloop : write_posts_loop write_crew R 0 w1 = (inl e, w3)).
    { rewrite HR, write_posts_loop_app, Hl. cbn [Nat.add]. rewrite Hl1.
      rewrite write_posts_loop_cons, Hs. reflexivity. }
    assert (Hp : BlogState.blog_posts (state w3) = outs).
    { rewrite Hst3, Hst, blog_posts_with_posts. cbn [w1 state set_logs]. now rewrite H0. }
    rewrite write_blog_posts_split, write_blog_posts_prefix_start, firstn_all.
    fold R. fold w1. rewrite Hloop.
    exists outs, w3. split; [reflexivity|]. split; [lia|].
    split.
    + intros n out Hn. destruct (Hnth n out Hn) as (o' & Ho' & Hcr).
      exists o'. split; [|exact Hcr].
      rewrite HR, nth_error_app1; [exact Ho'|].
      apply nth_error_Some. congruence.
    + split; [exact Hp|]. split; [rewrite Hf3, Hf; reflexivity|].
      rewrite Hc3, length_app, Hc. simpl. lia.
Qed.

(** C4 (skip planning without a roadmap file), as the code has it:
    [kickoff] with [skip_planning] set and a falsy [roadmap_file] ([None]
    or the empty string) raises nothing: it logs an error and returns
    normally, changing nothing but the log (no crew is called, no file or
    directory is created, the state is untouched). *)
Theorem skip_planning_without_roadmap (rf : option text) (w : world) :
  truthy rf = false ->
  kickoff plan_crew write_crew true rf w
  = (inr tt, set_logs (logs w ++ [start_log; missing_file_log]) w).
Proof. intros H. exact (kickoff_skip_falsy plan_crew write_crew rf w H). Qed.

(** C8 (an unreadable roadmap file is not caught), as the code has it: with
    [skip_planning] set and a non-empty path whose opening for reading
    raises [e], [kickoff] raises [e] itself, before any crew call,
    directory or file is made; [e] is [FileNotFoundError],
    [IsADirectoryError], [NotADirectoryError] (a parent is a regular file),
    [OSError] [ENAMETOOLONG], or [ValueError] (a NUL in the path).  With
    [None] and with the empty path, [kickoff] returns normally. *)
Theorem unreadable_roadmap_raises (p : text) (w : world) (e : exc) :
  p <> [] -> fst (read_file p w) = inl e ->
  (e = FileNotFoundError p \/ e = IsADirectoryError p \/ e = NotADirectoryError p
   \/ e = NameTooLongError p \/ e = ValueError (lit "embedded null byte"))
  /\ (exists w', kickoff plan_crew write_crew true (Some p) w = (inl e, w')
       /\ files w' = files w /\ dirs w' = dirs w
       /\ plan_calls w' = plan_calls w /\ write_calls w' = write_calls w)
  /\ fst (kickoff plan_crew write_crew true None w) = inr tt
  /\ fst (kickoff plan_crew write_crew true (Some []) w) = inr tt.
Proof.
  intros Hp Hr. split; [exact (read_file_errors p w e Hp Hr)|].
  split.
  - apply (kickoff_unreadable_file plan_crew write_crew p w e Hp).
    rewrite (surjective_pairing (read_file p w)), read_file_world, Hr. reflexivity.
  - split; rewrite kickoff_skip_falsy; reflexivity.
Qed.

(** C10 (an empty roadmap is not rejected): phase 2 on an empty roadmap
    returns the (empty) posts and only logs; a run that loads a roadmap
    file parsing to no outline completes without writing any file or
    calling the writing crew; a run whose planning crew returns no outline
    completes, writing only the roadmap file. *)
Theorem empty_roadmap_completes :
  (forall w, BlogState.blog_roadmap (state w) = [] ->
     BlogState.blog_posts (state w) = [] ->
     write_blog_posts write_crew w
     = (inr [], set_logs (logs w ++ completed_logs 0) w))
  /\ (forall p c w, read_file p w = (inr c, w) -> snd (parse_roadmap c) = [] ->
       exists w', kickoff plan_crew write_crew true (Some p) w = (inr tt, w')
         /\ files w' = files w /\ write_calls w' = write_calls w
         /\ BlogState.blog_posts (state w') = [])
  /\ (forall rf w, plan_crew default_title default_goal = inr [] ->
       is_dir (lit "output") w = true \/ lookup_file (lit "output") (files w) = None ->
       is_dir roadmap_path w = false ->
       exists w', kickoff plan_crew write_crew false rf w = (inr tt, w')
         /\ files w' = (roadmap_path, roadmap_content default_title default_goal [])
                       :: files w
         /\ write_calls w' = write_calls w
         /\ BlogState.blog_posts (state w') = []).
Proof.
  split; [|split].
  - intros w Hr Hp. rewrite (write_blog_posts_empty write_crew w Hr), Hp. reflexivity.
  - intros p c w Hr Hp.
    destruct (kickoff_skip_empty plan_crew write_crew p c w Hr Hp)
      as (w' & Hk & Hf & _ & _ & Hc & Hposts & _).
    exists w'. auto.
  - intros rf w Hplan Hout Hroad.
    destruct (kickoff_plan_empty plan_crew write_crew rf w Hplan Hout Hroad)
      as (w' & Hk & Hf & _ & Hc & Hposts & _).
    exists w'. auto.
Qed.


(** C1 (round trip), through the file: when the planning crew returns [L]
    for the topic [T] and goal [G] of the state, and [(T, G, L)] satisfies
    [roundtrip_ok] and [cr_free], phase 1 writes the roadmap document of
    [(T, G, L)] to [output/Blog_Series_Roadmap.md], and reading that file
    back with [parse_roadmap_file] (a text-mode read, then
    [parse_roadmap]) yields exactly [(T, G, L)]. *)
Theorem roadmap_roundtrip (w : world) (L : list BlogPostOutline.t) :
  roundtrip_ok (BlogState.topic (state w)) (BlogState.goal (state w)) L ->
  cr_free (BlogState.topic (state w)) (BlogState.goal (state w)) L ->
  plan_crew (BlogState.topic (state w)) (BlogState.goal (state w)) = inr L ->
  is_dir (lit "output") w = true \/ lookup_file (lit "output") (files w) = None ->
  is_dir roadmap_path w = false ->
  exists w', generate_blog_roadmap plan_crew false w = (inr L, w')
    /\ lookup_file roadmap_path (files w')
       = Some (roadmap_content (BlogState.topic (state w)) (BlogState.goal (state w)) L)
    /\ parse_roadmap_file roadmap_path w'
       = (inr (BlogState.topic (state w), BlogState.goal (state w), L), w').
Proof.
  intros Hok Hcr Hplan Hout Hroad.
  destruct (generate_roadmap_run plan_crew w L Hplan Hout Hroad)
    as (w' & Hg & _ & Hf & Ho & Hr & _ & _).
  assert (Hl : lookup_file roadmap_path (files w')
               = Some (roadmap_content (BlogState.topic (state w))
                         (BlogState.goal (state w)) L)).
  { rewrite Hf, lookup_file_head.
    replace (text_eqb roadmap_path roadmap_path) with true
      by (symmetry; apply text_eqb_spec; reflexivity).
    reflexivity. }
  exists w'. split; [exact Hg|]. split; [exact Hl|].
  unfold parse_roadmap_file, bind, ret.
  rewrite (read_written_roadmap _ w' Ho Hr Hl).
  rewrite (universal_newlines_id _ (roadmap_content_no_cr _ _ _ Hcr)).
  rewrite (roadmap_content_parse _ _ _ Hok). reflexivity.
Qed.

End Claims.

(** ** Witnesses on the example run *)

Lemma writer_input_bindings_witness :
  nth_error (write_calls (snd (write_blog_posts ex_write_crew ex_world))) (0 + 1)
    = Some (expected_inputs ex_state
              (BlogPostOutline.mk (lit "Write-Through Cache")
                 (lit "Write to cache and store together.")) 1)
  /\ let st0 := state ex_world in
     let R := BlogState.blog_roadmap st0 in
     exists o, nth_error R 1 = Some o
       /\ expected_inputs ex_state
            (BlogPostOutline.mk (lit "Write-Through Cache")
               (lit "Write to cache and store together.")) 1
          = WriteInputs.mk (BlogState.goal st0) (BlogState.topic st0)
              (BlogPostOutline.title o) (BlogPostOutline.description o)
              (map outline_dump R) 1 (1 + 1) (List.length R).
Proof.
  split; [vm_compute; reflexivity|].
  apply (writer_input_bindings ex_write_crew ex_world 1).
  vm_compute; reflexivity.
Defined.

Lemma posts_correspond_to_roadmap_witness :
  BlogState.blog_posts (state ex_world) = []
  /\ phase2_point ex_write_crew ex_world (snd (write_blog_posts ex_write_crew ex_world))
  /\ List.length (BlogState.blog_posts
                   (state (snd (write_blog_posts ex_write_crew ex_world))))
      <= List.length (BlogState.blog_roadmap (state ex_world))
  /\ forall n p, nth_error (BlogState.blog_posts
                   (state (snd (write_blog_posts ex_write_crew ex_world)))) n = Some p ->
       exists o, nth_error (BlogState.blog_roadmap (state ex_world)) n = Some o
         /\ nth_error (write_calls (snd (write_blog_posts ex_write_crew ex_world)))
              (List.length (write_calls ex_world) + n)
            = Some (expected_inputs (state ex_world) o n)
         /\ ex_write_crew (List.length (write_calls ex_world) + n)
              (expected_inputs (state ex_world) o n) = inr p.
Proof.
  split; [reflexivity|]. split; [right; reflexivity|].
  apply (posts_correspond_to_roadmap ex_write_crew ex_world); [reflexivity|right; reflexivity].
Defined.

Lemma recorded_posts_persisted_witness :
  BlogState.blog_posts (state ex_world) = []
  /\ phase2_point ex_write_crew ex_world (snd (write_blog_posts ex_write_crew ex_world))
  /\ forall n p, nth_error (BlogState.blog_posts
                   (state (snd (write_blog_posts ex_write_crew ex_world)))) n = Some p ->
       lookup_file (post_filename n (BlogPost.title p))
         (files (snd (write_blog_posts ex_write_crew ex_world)))
       = Some (BlogPost.content p).
Proof.
  split; [reflexivity|]. split; [right; reflexivity|].
  apply (recorded_posts_persisted ex_write_crew ex_world); [reflexivity|right; reflexivity].
Defined.

Lemma all_posts_written_witness :
  BlogState.blog_posts (state ex_world) = []
  /\ output_ready ex_world
  /\ let R := BlogState.blog_roadmap (state ex_world) in
     exists outs w', write_blog_posts ex_write_crew ex_world = (inr outs, w')
       /\ List.length outs = List.length R
       /\ (forall n out, nth_error outs n = Some out ->
             exists o, nth_error R n = Some o
               /\ ex_write_crew (List.length (write_calls ex_world) + n)
                    (expected_inputs (state ex_world) o n) = inr out)
       /\ BlogState.blog_posts (state w') = outs
       /\ files w' = rev (post_files 0 outs) ++ files ex_world
       /\ NoDup (map fst (post_files 0 outs))
       /\ (forall n out, nth_error outs n = Some out ->
             nth_error (post_files 0 outs) n
             = Some (post_filename n (BlogPost.title out), BlogPost.content out)).
Proof.
  assert (Hready : output_ready ex_world).
  { split; [reflexivity|]. intros d [<-|[]]. reflexivity. }
  split; [reflexivity|]. split; [exact Hready|].
  apply (all_posts_written ex_write_crew ex_world); [reflexivity|exact Hready|].
  intros n o Hn. exact (ex_write_crew_titles _ n o Hn).
Defined.

Lemma stops_at_failed_post_witness :
  BlogState.blog_posts (state ex_world) = []
  /\ output_ready ex_world
  /\ 1 < List.length (BlogState.blog_roadmap (state ex_world))
  /\ let R := BlogState.blog_roadmap (state ex_world) in
     exists outs w', write_blog_posts (ex_fail_crew 1) ex_world
                     = (inl (CrewError (lit "rate limit")), w')
       /\ List.length outs = 1
       /\ (forall n out, nth_error outs n = Some out ->
             exists o, nth_error R n = Some o
               /\ ex_fail_crew 1 (List.length (write_calls ex_world) + n)
                    (expected_inputs (state ex_world) o n) = inr out)
       /\ BlogState.blog_posts (state w') = outs
       /\ files w' = rev (post_files 0 outs) ++ files ex_world
       /\ List.length (write_calls w') = List.length (write_calls ex_world) + 1 + 1.
Proof.
  assert (Hready : output_ready ex_world).
  { split; [reflexivity|]. intros d [<-|[]]. reflexivity. }
  split; [reflexivity|]. split; [exact Hready|]. split; [cbn; lia|].
  apply (stops_at_failed_post (ex_fail_crew 1) ex_world 1 (CrewError (lit "rate limit")));
    [reflexivity|exact Hready|cbn; lia| |reflexivity].
  intros n o Hn Ho. unfold ex_fail_crew. cbn [write_calls ex_world List.length Nat.add].
  replace (n <? 1) with true by (symmetry; apply Nat.ltb_lt; exact Hn).
  exact (ex_write_crew_titles _ n o Ho).
Defined.

(** The example topic, goal and outlines satisfy [roundtrip_ok] and
    [cr_free]; phase 1 writes their roadmap file and reading it back gives
    them unchanged. *)
Lemma roadmap_roundtrip_witness :
  roundtrip_ok (lit "Caching Strategies") (lit "Explain 3 caching patterns") ex_outlines
  /\ cr_free (lit "Caching Strategies") (lit "Explain 3 caching patterns") ex_outlines
  /\ exists w', generate_blog_roadmap ex_plan_crew false ex_world = (inr ex_outlines, w')
       /\ lookup_file roadmap_path (files w')
          = Some (roadmap_content (lit "Caching Strategies")
                    (lit "Explain 3 caching patterns") ex_outlines)
       /\ parse_roadmap_file roadmap_path w'
          = (inr (lit "Caching Strategies", lit "Explain 3 caching patterns", ex_outlines), w').
Proof.
  assert (H : roundtrip_ok (lit "Caching Strategies") (lit "Explain 3 caching patterns")
                ex_outlines).
  { unfold roundtrip_ok.
    repeat split; try discriminate; try reflexivity.
    repeat constructor; unfold outline_ok; repeat split;
      try discriminate; reflexivity. }
  assert (Hc : cr_free (lit "Caching Strategies") (lit "Explain 3 caching patterns")
                 ex_outlines).
  { unfold cr_free. split; [no_cr_lit|]. split; [no_cr_lit|].
    repeat constructor; no_cr_lit. }
  split; [exact H|]. split; [exact Hc|].
  apply (roadmap_roundtrip ex_plan_crew ex_world ex_outlines H Hc);
    [reflexivity|left; reflexivity|reflexivity].
Defined.

(** ** Counterexamples *)

(** C2: a writing crew that succeeds on every call but returns the title
    ["CI/CD"]: the first post file, [output/Blog_Post_1_CI/CD.md], lies in a
    directory that does not exist, so [write_blog_posts] raises
    [FileNotFoundError] and records no post.  A title of 300 letters, with no
    ['/'] and no NUL, gives a file name over 255 bytes: opening it raises
    [OSError] [ENAMETOOLONG].  A title holding a NUL makes [open] raise
    [ValueError]. *)
Lemma all_posts_written_counterexample :
  (forall n inp, exists out, ex_slash_crew n inp = inr out)
  /\ fst (write_blog_posts ex_slash_crew ex_world)
     = inl (FileNotFoundError (lit "output/Blog_Post_1_CI/CD.md"))
  /\ BlogState.blog_posts (state (snd (write_blog_posts ex_slash_crew ex_world))) = []
  /\ ~ In "/"%char (repeat "a"%char 300) /\ ~ In NUL (repeat "a"%char 300)
  /\ fst (write_blog_posts (ex_title_crew (repeat "a"%char 300)) ex_world)
     = inl (NameTooLongError (post_filename 0 (repeat "a"%char 300)))
  /\ fst (write_blog_posts (ex_title_crew (lit "A" ++ [NUL] ++ lit "B")) ex_world)
     = inl (ValueError (lit "embedded null byte")).
Proof.
  split; [intros n inp; eexists; reflexivity|].
  split; [vm_compute; reflexivity|]. split; [vm_compute; reflexivity|].
  split; [intros H; apply repeat_spec in H; discriminate|].
  split; [intros H; apply repeat_spec in H; discriminate|].
  split; vm_compute; reflexivity.
Qed.

(** C3: the error raised when the writing crew fails does not depend on
    the index of the failing call: failing on the call for index 1 and on
    the call for index 0 raise the same error, the crew's own. *)
Lemma stops_at_failed_post_counterexample :
  fst (write_blog_posts (ex_fail_crew 1) ex_world)
  = fst (write_blog_posts (ex_fail_crew 0) ex_world)
  /\ fst (write_blog_posts (ex_fail_crew 1) ex_world)
     = inl (CrewError (lit "rate limit")).
Proof. split; vm_compute; reflexivity. Qed.

Lemma skip_planning_without_roadmap_witness :
  truthy None = false
  /\ kickoff ex_plan_crew ex_write_crew true None ex_world
     = (inr tt, set_logs (logs ex_world ++ [start_log; missing_file_log]) ex_world).
Proof.
  split; [reflexivity|].
  apply (skip_planning_without_roadmap ex_plan_crew ex_write_crew None ex_world).
  reflexivity.
Defined.

(** A roadmap path under the regular file [notes.txt]: opening it raises
    [NotADirectoryError], and so does [kickoff]. *)
Lemma unreadable_roadmap_raises_witness :
  let p := lit "notes.txt/r.md" in
  p <> [] /\ fst (read_file p ex_notes_world) = inl (NotADirectoryError p)
  /\ ((NotADirectoryError p = FileNotFoundError p \/ NotADirectoryError p = IsADirectoryError p
       \/ NotADirectoryError p = NotADirectoryError p
       \/ NotADirectoryError p = NameTooLongError p
       \/ NotADirectoryError p = ValueError (lit "embedded null byte"))
      /\ (exists w', kickoff ex_plan_crew ex_write_crew true (Some p) ex_notes_world
                     = (inl (NotADirectoryError p), w')
           /\ files w' = files ex_notes_world /\ dirs w' = dirs ex_notes_world
           /\ plan_calls w' = plan_calls ex_notes_world
           /\ write_calls w' = write_calls ex_notes_world)
      /\ fst (kickoff ex_plan_crew ex_write_crew true None ex_notes_world) = inr tt
      /\ fst (kickoff ex_plan_crew ex_write_crew true (Some []) ex_notes_world) = inr tt).
Proof.
  intros p. split; [discriminate|]. split; [vm_compute; reflexivity|].
  apply (unreadable_roadmap_raises ex_plan_crew ex_write_crew p ex_notes_world);
    [discriminate|vm_compute; reflexivity].
Defined.

(** C4: [kickoff] with [skip_planning] and no roadmap file raises no
    error at all. *)
Lemma skip_planning_without_roadmap_counterexample :
  ~ exists e w', kickoff ex_plan_crew ex_write_crew true None ex_world = (inl e, w').
Proof. intros (e & w' & H). vm_compute in H. discriminate. Qed.

(** C8: the empty path names no readable file (opening it raises), yet
    [kickoff] with it returns normally, as with [None]. *)
Lemma unreadable_roadmap_raises_counterexample :
  read_file [] ex_world = (inl (FileNotFoundError []), ex_world)
  /\ fst (kickoff ex_plan_crew ex_write_crew true (Some []) ex_world) = inr tt.
Proof. split; vm_compute; reflexivity. Qed.


(** C1, through the file: a description holding a CRLF line break meets
    [roundtrip_ok], but the text-mode read turns the break into a single
    newline, so the outline comes back changed.  And the default goal of
    [BlogState] begins with a newline and indentation, which the parser
    strips. *)
Lemma roadmap_roundtrip_counterexample :
  roundtrip_ok (lit "Caching Strategies") (lit "Explain 3 caching patterns")
    ex_crlf_outlines
  /\ (exists w', generate_blog_roadmap ex_crlf_plan_crew false ex_world
                 = (inr ex_crlf_outlines, w')
       /\ parse_roadmap_file roadmap_path w'
          = (inr (lit "Caching Strategies", lit "Explain 3 caching patterns",
                  ex_lf_outlines), w'))
  /\ ex_lf_outlines <> ex_crlf_outlines
  /\ (exists w', generate_blog_roadmap ex_plan_crew false ex_default_world
                 = (inr ex_outlines, w')
       /\ parse_roadmap_file roadmap_path w'
          = (inr (default_title, strip default_goal, ex_outlines), w'))
  /\ strip default_goal <> default_goal.
Proof.
  split.
  { unfold roundtrip_ok.
    repeat split; try discriminate; try reflexivity.
    repeat constructor; unfold outline_ok; repeat split;
      try discriminate; vm_compute; reflexivity. }
  split.
  { exists (snd (generate_blog_roadmap ex_crlf_plan_crew false ex_world)).
    split; vm_compute; reflexivity. }
  split; [intros H; vm_compute in H; discriminate|].
  split.
  { exists (snd (generate_blog_roadmap ex_plan_crew false ex_default_world)).
    split; vm_compute; reflexivity. }
  intros H. vm_compute in H. discriminate.
Qed.

(** * Further properties of main.py *)

(** [setup_logging] with its default path: when [output] is a regular
    file it raises [FileExistsError] and changes nothing; when [output] is a
    directory or absent (and the log path is no directory) it succeeds,
    leaves [output] a directory and the log file present with its old
    content (empty if new), and changes no other file, the state or the log. *)
Theorem setup_logging_default (w : world) :
  (forall c, lookup_file (lit "output") (files w) = Some c ->
     is_dir (lit "output") w = false ->
     setup_logging log_file_default w = (inl (FileExistsError (lit "output")), w))
  /\ ((is_dir (lit "output") w = true \/ lookup_file (lit "output") (files w) = None) ->
     is_dir log_file_default w = false ->
     exists w', setup_logging log_file_default w = (inr tt, w')
       /\ is_dir (lit "output") w' = true
       /\ lookup_file log_file_default (files w')
          = Some (match lookup_file log_file_default (files w) with
                  | Some c => c | None => [] end)
       /\ (forall p, p <> log_file_default ->
             lookup_file p (files w') = lookup_file p (files w))
       /\ state w' = state w /\ logs w' = logs w).
Proof.
  split.
  - intros c Hf Hd. unfold setup_logging, bind, makedirs.
    change (dirname log_file_default) with (lit "output").
    change (walk_dirs (lit "output")) with (@nil text).
    cbn [mkdir_chain]. unfold mkdir_step.
    change (path_error (lit "output")) with (@None exc). cbv iota.
    rewrite Hd, Hf. reflexivity.
  - intros Hout Hlog. unfold setup_logging, bind.
    change (dirname log_file_default) with (lit "output").
    destruct (makedirs_output_ok w Hout) as (ds & Hm & Ho & Hin). rewrite Hm.
    cbv iota. unfold open_append.
    assert (Hd : is_dir log_file_default (set_dirs ds w) = false).
    { unfold is_dir. cbn [dirs set_dirs]. apply mem_text_false. intros d Hd.
      destruct (Hin d Hd) as [-> | Hd']; [intros Heq; vm_compute in Heq; discriminate|].
      apply mem_text_false with (l := dirs w); [exact Hlog|exact Hd']. }
    change (path_error log_file_default) with (@None exc).
    change (walk_dirs log_file_default) with [lit "output"].
    cbn [walk_error]. rewrite Ho, Hd.
    change (NAME_MAX <? utf8_len (basename log_file_default)) with false. cbv iota.
    destruct w as [st fs ds0 pc wc lg fid]. cbn [files set_dirs] in *.
    destruct (lookup_file log_file_default fs) as [c|] eqn:Hl.
    + eexists; split; [reflexivity|]. cbn. repeat split; auto.
    + eexists; split; [reflexivity|]. cbn [files set_files state logs].
      repeat split; try exact Ho.
      * intros p Hp. rewrite lookup_file_head.
        destruct (text_eqb p log_file_default) eqn:E; [|reflexivity].
        apply text_eqb_spec in E. contradiction.
Qed.

Section Extra.
Variable plan_crew : text -> text -> exc + list BlogPostOutline.t.
Variable write_crew : nat -> WriteInputs.t -> exc + BlogPost.t.

(** Without [skip_planning], [kickoff] ignores [roadmap_file]. *)
Theorem kickoff_ignores_roadmap_file (rf : option text) (w : world) :
  kickoff plan_crew write_crew false rf w = kickoff plan_crew write_crew false None w.
Proof. reflexivity. Qed.

(** Without [skip_planning], a failing planning crew makes [kickoff] raise
    its error after exactly one planning call with the default title and
    goal, and before any file, directory or writing call. *)
Theorem kickoff_planning_error (rf : option text) (w : world) (e : exc) :
  plan_crew default_title default_goal = inl e ->
  exists w', kickoff plan_crew write_crew false rf w = (inl e, w')
    /\ files w' = files w /\ dirs w' = dirs w
    /\ plan_calls w' = plan_calls w ++ [(default_title, default_goal)]
    /\ write_calls w' = write_calls w.
Proof.
  intros Hplan. destruct w as [st fs ds pc wc lg fid].
  unfold kickoff, flow_init, flow_kickoff, generate_blog_roadmap, call_plan; run_m.
  rewrite Hplan. eexists; split; [reflexivity|]. repeat split.
Qed.

(** Phase 1 on success: the state's roadmap is the crew's outlines and the
    roadmap document is written to [output/Blog_Series_Roadmap.md]. *)
Theorem generate_roadmap_written (w : world) (posts : list BlogPostOutline.t) :
  plan_crew (BlogState.topic (state w)) (BlogState.goal (state w)) = inr posts ->
  is_dir (lit "output") w = true \/ lookup_file (lit "output") (files w) = None ->
  is_dir roadmap_path w = false ->
  exists w', generate_blog_roadmap plan_crew false w = (inr posts, w')
    /\ state w' = with_roadmap posts (state w)
    /\ files w' = (roadmap_path,
                   roadmap_content (BlogState.topic (state w))
                     (BlogState.goal (state w)) posts) :: files w
    /\ is_dir (lit "output") w' = true
    /\ plan_calls w' = plan_calls w
                       ++ [(BlogState.topic (state w), BlogState.goal (state w))]
    /\ write_calls w' = write_calls w.
Proof.
  intros Hplan Hout Hroad.
  destruct (generate_roadmap_run plan_crew w posts Hplan Hout Hroad)
    as (w' & Hg & Hs & Hf & Ho & _ & Hp & Hc).
  exists w'. repeat split; assumption.
Qed.

(** Phase 1 when [output] is a regular file: the roadmap is already in
    the state, but [os.makedirs] raises [FileExistsError] and no file or
    directory changes. *)
Theorem generate_roadmap_output_is_file (w : world) (posts : list BlogPostOutline.t)
    (c : text) :
  plan_crew (BlogState.topic (state w)) (BlogState.goal (state w)) = inr posts ->
  lookup_file (lit "output") (files w) = Some c ->
  is_dir (lit "output") w = false ->
  exists w', generate_blog_roadmap plan_crew false w
             = (inl (FileExistsError (lit "output")), w')
    /\ state w' = with_roadmap posts (state w)
    /\ files w' = files w /\ dirs w' = dirs w.
Proof.
  intros Hplan Hf Hd. destruct w as [st fs ds pc wc lg fid]. cbn [state files] in *.
  unfold generate_blog_roadmap, call_plan; run_m.
  rewrite Hplan. run_m. unfold makedirs.
  change (walk_dirs (lit "output")) with (@nil text). cbn [mkdir_chain]. unfold mkdir_step.
  change (path_error (lit "output")) with (@None exc). cbv iota.
  unfold is_dir in *. cbn [dirs files] in *.
  rewrite Hd, Hf. eexists; split; [reflexivity|]. repeat split.
Qed.

(** [BlogFlow.__init__]: without a roadmap to load the state is reset to a
    fresh [BlogState]; with a readable roadmap file it holds the parsed
    topic, goal and outlines and a log line reports the number of posts. *)
Theorem flow_init_state (skip_planning : bool) (rf : option text) (w : world) :
  (skip_planning && truthy rf = false ->
     flow_init skip_planning rf w = (inr tt, set_state (initial_state (fresh_id w)) w))
  /\ (forall p c, rf = Some p -> skip_planning = true -> read_file p w = (inr c, w) ->
     let '(topic, goal, outlines) := parse_roadmap c in
     flow_init skip_planning rf w
     = (inr tt, set_logs (logs w ++ [(INFO, lit "Loaded roadmap from " ++ p ++ lit " with "
                                  ++ str_nat (List.length outlines) ++ lit " posts")])
                 (set_state (BlogState.mk (fresh_id w) default_title [] outlines topic goal) w))).
Proof.
  split.
  - intros H. unfold flow_init. rewrite H. destruct w; reflexivity.
  - intros p c -> -> Hr. destruct p as [|a p']; [discriminate|].
    pose proof (fun v => read_file_same _ _ w v Hr) as Hr'.
    destruct w as [st fs ds pc wc lg fid].
    unfold flow_init, parse_roadmap_file; run_m.
    rewrite Hr' by reflexivity.
    destruct (parse_roadmap c) as [[t g] l]. reflexivity.
Qed.

End Extra.

Section Frame.
Variable plan_crew : text -> text -> exc + list BlogPostOutline.t.
Variable write_crew : nat -> WriteInputs.t -> exc + BlogPost.t.

Lemma write_posts_loop_frame (os : list BlogPostOutline.t) :
  forall i w, phase2_frame w (snd (write_posts_loop write_crew os i w)).
Proof.
  induction os as [|o os IH]; intros i w; unfold phase2_frame.
  - cbn. split; [now rewrite with_posts_posts|].
    split; [exists []; now rewrite app_nil_r|].
    repeat split; exists []; split; [reflexivity|intros p c []].
  - rewrite write_posts_loop_cons.
    destruct (write_single_post write_crew o i w) as [r w1] eqn:Hs.
    apply write_single_post_cases in Hs.
    destruct Hs as (Hst1 & Hd1 & Hp1 & _ & Hcase).
    destruct Hcase as [(e & _ & -> & Hf)|[(out & e & _ & _ & -> & Hf)|(out & _ & -> & Hf)]].
    + cbn [snd]. rewrite Hst1. split; [now rewrite with_posts_posts|].
      split; [exists []; now rewrite app_nil_r|].
      repeat split; auto. exists []; split; [exact Hf|intros p c []].
    + cbn [snd]. rewrite Hst1. split; [now rewrite with_posts_posts|].
      split; [exists []; now rewrite app_nil_r|].
      repeat split; auto. exists []; split; [exact Hf|intros p c []].
    + set (w2 := set_state _ w1).
      destruct (IH (S i) w2) as (Hs2 & (ps & Hps) & Hd2 & Hp2 & (fs & Hf2 & Hfs)).
      assert (Hst2 : state w2 = with_posts (BlogState.blog_posts (state w) ++ [out]) (state w))
        by (subst w2; cbn [state set_state]; now rewrite Hst1).
      split; [rewrite Hs2, Hst2; apply with_posts_twice|].
      split.
      { exists (out :: ps). rewrite Hps, Hst2, blog_posts_with_posts, <- app_assoc. reflexivity. }
      split; [rewrite Hd2; subst w2; cbn [dirs set_state]; exact Hd1|].
      split; [rewrite Hp2; subst w2; cbn [plan_calls set_state]; exact Hp1|].
      exists (fs ++ [(post_filename i (BlogPost.title out), BlogPost.content out)]).
      split.
      * rewrite Hf2. subst w2; cbn [files set_state]. rewrite Hf, <- app_assoc. reflexivity.
      * intros p c Hin. apply in_app_or in Hin. destruct Hin as [Hin|[Hin|[]]].
        -- exact (Hfs p c Hin).
        -- injection Hin as <- _. eauto.
Qed.

(** Phase 2 only appends posts to the state (its other fields unchanged)
    and only adds post files; directories and planning calls stay as they
    were, also when it raises. *)
Theorem write_blog_posts_frame (w : world) :
  phase2_frame w (snd (write_blog_posts write_crew w)).
Proof.
  unfold write_blog_posts. cbv beta iota zeta delta [bind ret gets modify log].
  match goal with |- context [write_posts_loop write_crew ?os 0 ?v] =>
    pose proof (write_posts_loop_frame os 0 v) as H;
    destruct (write_posts_loop write_crew os 0 v) as [[e|[]] w2] end;
    cbn [snd] in *; destruct H as (Hs & Hps & Hd & Hp & Hf); destruct w, w2;
    cbn in *; exact (conj Hs (conj Hps (conj Hd (conj Hp Hf)))).
Qed.

Lemma post_filename_not_roadmap (i : nat) (t : text) : post_filename i t <> roadmap_path.
Proof.
  unfold post_filename. intros H. apply (f_equal (firstn 17)) in H.
  rewrite firstn_app in H. cbn in H. discriminate.
Qed.

Lemma lookup_file_app_other (p : text) (fs gs : list (text * text)) :
  (forall q c, In (q, c) fs -> q <> p) ->
  lookup_file p (fs ++ gs) = lookup_file p gs.
Proof.
  induction fs as [|[q c] fs IH]; intros H; [reflexivity|].
  cbn [app]. rewrite lookup_file_head.
  destruct (text_eqb p q) eqn:E.
  - apply text_eqb_spec in E. exfalso. apply (H q c); [left; reflexivity|auto].
  - apply IH. intros q' c' Hin. apply (H q' c'). right; exact Hin.
Qed.

(** [kickoff] with [skip_planning] and a readable roadmap file makes no
    planning call, leaves the roadmap path and the directories untouched,
    and ends with the parsed topic, goal and outlines in the state. *)
Theorem kickoff_skip_planning_run (p c : text) (w : world) :
  read_file p w = (inr c, w) ->
  let w' := snd (kickoff plan_crew write_crew true (Some p) w) in
  plan_calls w' = plan_calls w
  /\ lookup_file roadmap_path (files w') = lookup_file roadmap_path (files w)
  /\ dirs w' = dirs w
  /\ (BlogState.topic (state w'), BlogState.goal (state w'),
      BlogState.blog_roadmap (state w')) = parse_roadmap c.
Proof.
  intros Hr w'. subst w'. destruct p as [|a p']; [discriminate|].
  pose proof (fun v => read_file_same _ _ w v Hr) as Hr'.
  unfold kickoff, flow_init, flow_kickoff, generate_blog_roadmap, parse_roadmap_file.
  cbv beta iota zeta delta [bind ret gets modify update_state log].
  cbn [andb negb truthy show_opt].
  rewrite Hr' by (destruct w; reflexivity).
  destruct (parse_roadmap c) as [[t g] l] eqn:Ep.
  match goal with |- context [write_blog_posts write_crew ?v] => set (W := v) end.
  pose proof (write_blog_posts_frame W) as HF.
  destruct (write_blog_posts write_crew W) as [[e|ps] w2];
    cbn [snd] in *; destruct HF as (Hs & _ & Hd & Hp & fs & Hf & Hfs);
    cbn [set_logs state plan_calls dirs files];
    rewrite Hs, Hd, Hp, Hf; subst W;
    cbn [state set_logs set_state plan_calls dirs files with_posts
         BlogState.topic BlogState.goal BlogState.blog_roadmap];
    (split; [reflexivity|]);
    (split; [apply lookup_file_app_other; intros q c' Hin ->;
             destruct (Hfs _ _ Hin) as (j & t' & Hj);
             exact (post_filename_not_roadmap j t' (eq_sym Hj))|]);
    split; reflexivity.
Qed.

End Frame.

(** ** [str.strip] *)

Lemma lstrip_idem (s : text) : lstrip (lstrip s) = lstrip s.
Proof.
  induction s as [|c s IH]; [reflexivity|]. cbn [lstrip].
  destruct (is_space c) eqn:Hc; [exact IH|]. cbn [lstrip]. now rewrite Hc.
Qed.

Lemma lstrip_length (s : text) : List.length (lstrip s) <= List.length s.
Proof.
  induction s as [|c s IH]; [reflexivity|]. cbn [lstrip].
  destruct (is_space c); cbn [List.length]; lia.
Qed.

Lemma lstrip_split (s : text) : exists sp, s = sp ++ lstrip s.
Proof.
  induction s as [|c s IH]; [exists []; reflexivity|]. cbn [lstrip].
  destruct (is_space c).
  - destruct IH as [sp Hsp]. exists (c :: sp). cbn [app]. now rewrite <- Hsp.
  - exists []. reflexivity.
Qed.

Lemma lstrip_rstrip (u : text) : lstrip u = u -> lstrip (rstrip u) = rstrip u.
Proof.
  intros Hu. unfold rstrip. destruct (lstrip_split (rev u)) as [sp Hsp].
  assert (Eu : u = rev (lstrip (rev u)) ++ rev sp).
  { rewrite <- rev_app_distr, <- Hsp, rev_involutive. reflexivity. }
  destruct (rev (lstrip (rev u))) as [|c r] eqn:Er; [reflexivity|].
  rewrite Eu in Hu. cbn [app lstrip] in Hu. cbn [lstrip].
  destruct (is_space c) eqn:Hc; [|reflexivity].
  exfalso. apply (f_equal (@List.length ascii)) in Hu.
  pose proof (lstrip_length (r ++ rev sp)). cbn [List.length] in Hu. lia.
Qed.

Lemma strip_idem (s : text) : strip (strip s) = strip s.
Proof.
  unfold strip. rewrite lstrip_rstrip by apply lstrip_idem.
  unfold rstrip. rewrite rev_involutive, lstrip_idem. reflexivity.
Qed.

Lemma in_lstrip (c : ascii) (s : text) : In c (lstrip s) -> In c s.
Proof.
  destruct (lstrip_split s) as [sp Hsp]. intros H. rewrite Hsp.
  apply in_or_app. right; exact H.
Qed.

Lemma in_strip (c : ascii) (s : text) : In c (strip s) -> In c s.
Proof.
  unfold strip, rstrip. intros H. apply in_rev in H. apply in_lstrip in H.
  apply in_rev in H. apply in_lstrip in H. exact H.
Qed.

(** ** What the matchers capture *)

Lemma lazy_star_group {A} (p : ascii -> bool) (s : text) (k : text -> text -> option A)
    (v : A) :
  lazy_star p s k = Some v -> exists g r, Forall (fun c => p c = true) g /\ k g r = Some v.
Proof.
  revert k; induction s as [|c s IH]; intros k H; cbn [lazy_star] in H.
  - destruct (k [] []) eqn:E; [|discriminate]. injection H as ->. eauto.
  - destruct (k [] (c :: s)) eqn:E; [injection H as ->; eauto|].
    destruct (p c) eqn:Hp; [|discriminate].
    destruct (IH _ H) as (g & r & Hg & Hk). exists (c :: g), r. auto.
Qed.

Lemma re_search_at {A} (m : text -> option A) (s : text) (v : A) :
  re_search m s = Some v -> exists n, m (skipn n s) = Some v.
Proof.
  induction s as [|c s IH]; intros H; cbn [re_search] in H.
  - destruct (m []) eqn:E; [|discriminate]. injection H as ->. exists 0. exact E.
  - destruct (m (c :: s)) eqn:E; [injection H as ->; exists 0; exact E|].
    destruct (IH H) as [n Hn]. exists (S n). exact Hn.
Qed.

Lemma topic_group_no_nl (c g : text) : re_search topic_at c = Some g -> ~ In NL g.
Proof.
  intros H. destruct (re_search_at _ _ _ H) as [n Hn]. clear H.
  unfold topic_at in Hn. destruct (is_prefix _ _); [|discriminate].
  unfold lazy_plus in Hn. destruct (skipn 10 (skipn n c)) as [|a s]; [discriminate|].
  destruct (dot a) eqn:Ha; [|discriminate].
  destruct (lazy_star_group _ _ _ _ Hn) as (g' & r & Hg & Hk).
  destruct (is_prefix [NL] r || at_end r); [|discriminate]. injection Hk as <-.
  intros Hin. assert (Hall : Forall (fun c => dot c = true) (a :: g')) by (constructor; auto).
  rewrite Forall_forall in Hall. specialize (Hall NL Hin).
  unfold dot in Hall. rewrite Ascii.eqb_refl in Hall. discriminate.
Qed.

(** Everything [parse_roadmap] returns is stripped, and the topic holds
    no newline. *)
Theorem parse_roadmap_stripped (c : text) :
  let '(topic, goal, outlines) := parse_roadmap c in
  strip topic = topic /\ ~ In NL topic /\ strip goal = goal
  /\ Forall (fun o => strip (BlogPostOutline.title o) = BlogPostOutline.title o
                      /\ strip (BlogPostOutline.description o)
                         = BlogPostOutline.description o) outlines.
Proof.
  unfold parse_roadmap.
  split; [destruct (re_search topic_at c); [apply strip_idem|reflexivity]|].
  split.
  { destruct (re_search topic_at c) as [g|] eqn:E; [|intros []].
    intros Hin. apply in_strip in Hin. exact (topic_group_no_nl _ _ E Hin). }
  split; [destruct (re_search goal_at c); [apply strip_idem|reflexivity]|].
  apply Forall_forall. intros o Ho. apply in_map_iff in Ho.
  destruct Ho as ([t d] & <- & _). cbn. split; apply strip_idem.
Qed.

(** ** Topic and goal of a document *)

Lemma topic_at_line (T z : text) :
  T <> [] -> contains [NL] T = false ->
  match z with [] => True | c :: _ => c = NL end ->
  topic_at (lit "## Topic: " ++ T ++ z) = Some T.
Proof.
  intros Hne Hnl Hz. unfold topic_at. rewrite is_prefix_app.
  change (skipn 10 (lit "## Topic: " ++ ?y)) with y.
  destruct T as [|a T']; [congruence|].
  assert (Hdot : forall c, In c (a :: T') -> dot c = true).
  { intros c Hc. unfold dot. destruct (Ascii.eqb_spec c NL) as [->|_]; [|reflexivity].
    apply in_contains in Hc. congruence. }
  cbn [lazy_plus app]. rewrite (Hdot a) by (left; reflexivity).
  rewrite lazy_star_skip.
  - apply lazy_star_now. rewrite app_nil_r.
    destruct z as [|d z]; [reflexivity|]. subst d. cbn. reflexivity.
  - apply Forall_forall. intros c Hc. apply Hdot. right; exact Hc.
  - intros n Hn. destruct (skipn n T') as [|e s] eqn:E.
    + apply (f_equal (@List.length ascii)) in E. rewrite length_skipn in E.
      cbn in E. lia.
    + assert (He : e <> NL).
      { intros ->. assert (Hi : In NL (a :: T')).
        { right. rewrite <- (firstn_skipn n T'). apply in_or_app. right.
          rewrite E. left. reflexivity. }
        apply in_contains in Hi. congruence. }
      assert (Hne' : Ascii.eqb NL e = false) by (apply Ascii.eqb_neq; congruence).
      assert (Hne'' : Ascii.eqb e NL = false) by (apply Ascii.eqb_neq; congruence).
      cbn [app is_prefix]. rewrite Hne'. cbn [andb orb].
      destruct (s ++ z) eqn:Esz; cbn [at_end]; [rewrite Hne''; reflexivity|reflexivity].
Qed.

(** The topic is the stripped rest of the first [## Topic: ] line. *)
Theorem parse_topic_line (pre T rest : text) :
  contains (lit "## Topic: ") pre = false ->
  T <> [] -> contains [NL] T = false ->
  match rest with [] => True | c :: _ => c = NL end ->
  fst (fst (parse_roadmap (pre ++ lit "## Topic: " ++ T ++ rest))) = strip T.
Proof.
  intros Hpre Hne Hnl Hrest. unfold parse_roadmap. cbn [fst].
  rewrite re_search_skip.
  - rewrite (re_search_first _ _ T); [reflexivity|]. apply topic_at_line; assumption.
  - intros n Hn. unfold topic_at.
    rewrite (no_straddle _ pre); [reflexivity|exact Hpre| |exact Hn].
    intros j Hj. cbn in Hj.
    do 10 (destruct j as [|j]; [first [reflexivity | lia]|]); lia.
Qed.

(** The goal is the stripped text between the first [## Goal] line and
    the next blank line followed by [## Planned Posts]. *)
Theorem parse_goal_section (pre G rest : text) :
  contains (lit "## Goal" ++ [NL]) pre = false ->
  contains ([NL; NL] ++ lit "## Planned Posts") G = false ->
  snd (fst (parse_roadmap
    (pre ++ lit "## Goal" ++ [NL] ++ G ++ [NL; NL] ++ lit "## Planned Posts" ++ rest)))
  = strip G.
Proof.
  intros Hpre HG. unfold parse_roadmap. cbn [fst snd].
  rewrite re_search_skip.
  - rewrite (re_search_first _ _ G); [reflexivity|]. apply goal_at_match; exact HG.
  - intros n Hn. unfold goal_at.
    rewrite (no_straddle _ pre); [reflexivity|exact Hpre| |exact Hn].
    intros j Hj. cbn in Hj.
    do 8 (destruct j as [|j]; [first [reflexivity | lia]|]); lia.
Qed.

(** ** Post file names *)

(** Post files of distinct indices have distinct names, and no post file
    name contains a space. *)
Theorem post_filename_distinct_no_space :
  (forall i j t t', i <> j -> post_filename i t <> post_filename j t')
  /\ (forall i t, ~ In " "%char (post_filename i t)).
Proof.
  split.
  - intros i j t t' Hij H. apply Hij. exact (post_filename_inj _ _ _ _ H).
  - intros i t H. unfold post_filename in H.
    repeat (apply in_app_or in H; destruct H as [H|H]).
    + cbn in H. repeat (destruct H as [H|H]; [discriminate|]). exact H.
    + pose proof (str_nat_digits (i + 1)) as Hd. rewrite Forall_forall in Hd.
      specialize (Hd _ H). discriminate.
    + cbn in H. repeat (destruct H as [H|H]; [discriminate|]). exact H.
    + unfold replace_char in H. apply in_map_iff in H. destruct H as (c & Hc & _).
      destruct (Ascii.eqb c " ") eqn:E; [discriminate|].
      subst c. rewrite Ascii.eqb_refl in E. discriminate.
    + cbn in H. repeat (destruct H as [H|H]; [discriminate|]). exact H.
Qed.

(** ** Documents without the parser's headings *)

Lemma search_absent_marker {A} (q : text) (m : text -> option A) (c : text) :
  (forall s, is_prefix q s = false -> m s = None) ->
  contains q c = false -> re_search m c = None.
Proof.
  intros Hm Hc. apply re_search_none. intros n _. apply Hm.
  destruct (is_prefix q (skipn n c)) eqn:E; [|reflexivity].
  rewrite (contains_skipn _ _ _ E) in Hc. discriminate.
Qed.

(** A document without [## Topic: ] yields the empty topic, one without
    a [## Goal] line the empty goal, one without [### ] no outline. *)
Theorem parse_roadmap_missing_sections (c : text) :
  (contains (lit "## Topic: ") c = false -> fst (fst (parse_roadmap c)) = [])
  /\ (contains (lit "## Goal" ++ [NL]) c = false -> snd (fst (parse_roadmap c)) = [])
  /\ (contains (lit "### ") c = false -> snd (parse_roadmap c) = []).
Proof.
  unfold parse_roadmap; cbn [fst snd]. split; [|split]; intros H.
  - rewrite (search_absent_marker (lit "## Topic: ") topic_at c); [reflexivity| |exact H].
    intros s Hs. unfold topic_at. rewrite Hs. reflexivity.
  - rewrite (search_absent_marker (lit "## Goal" ++ [NL]) goal_at c); [reflexivity| |exact H].
    intros s Hs. unfold goal_at. rewrite Hs. reflexivity.
  - unfold post_sections. rewrite finditer_none; [reflexivity|].
    intros n _. unfold post_at.
    destruct (is_prefix (lit "### ") (skipn n c)) eqn:E; [|reflexivity].
    rewrite (contains_skipn _ _ _ E) in H. discriminate.
Qed.


(** ** Witnesses of the further properties *)

Lemma setup_logging_default_witness :
  lookup_file (lit "output") (files ex_file_world) = Some (lit "notes")
  /\ is_dir (lit "output") ex_file_world = false
  /\ setup_logging log_file_default ex_file_world
     = (inl (FileExistsError (lit "output")), ex_file_world)
  /\ is_dir (lit "output") ex_world = true
  /\ is_dir log_file_default ex_world = false
  /\ exists w', setup_logging log_file_default ex_world = (inr tt, w')
       /\ lookup_file log_file_default (files w') = Some [].
Proof.
  split; [reflexivity|]. split; [reflexivity|].
  split; [exact (proj1 (setup_logging_default ex_file_world) (lit "notes") eq_refl eq_refl)|].
  split; [reflexivity|]. split; [reflexivity|].
  destruct (proj2 (setup_logging_default ex_world) (or_introl eq_refl) eq_refl)
    as (w' & H1 & _ & H3 & _).
  exists w'. split; [exact H1|]. rewrite H3. reflexivity.
Defined.

Lemma kickoff_planning_error_witness :
  ex_plan_fail default_title default_goal = inl (CrewError (lit "quota"))
  /\ exists w', kickoff ex_plan_fail ex_write_crew false None ex_world
                = (inl (CrewError (lit "quota")), w')
       /\ files w' = files ex_world /\ dirs w' = dirs ex_world
       /\ plan_calls w' = plan_calls ex_world ++ [(default_title, default_goal)]
       /\ write_calls w' = write_calls ex_world.
Proof.
  split; [reflexivity|].
  exact (kickoff_planning_error ex_plan_fail ex_write_crew None ex_world
           (CrewError (lit "quota")) eq_refl).
Defined.

Lemma generate_roadmap_written_witness :
  ex_plan_crew (BlogState.topic (state ex_world)) (BlogState.goal (state ex_world))
    = inr ex_outlines
  /\ is_dir roadmap_path ex_world = false
  /\ exists w', generate_blog_roadmap ex_plan_crew false ex_world = (inr ex_outlines, w')
       /\ files w' = (roadmap_path, ex_roadmap_doc) :: files ex_world.
Proof.
  split; [reflexivity|]. split; [reflexivity|].
  destruct (generate_roadmap_written ex_plan_crew ex_world ex_outlines eq_refl
              (or_introl eq_refl) eq_refl) as (w' & H1 & _ & H3 & _).
  exists w'. split; [exact H1|exact H3].
Defined.

Lemma generate_roadmap_output_is_file_witness :
  ex_plan_crew (BlogState.topic (state ex_file_world)) (BlogState.goal (state ex_file_world))
    = inr ex_outlines
  /\ lookup_file (lit "output") (files ex_file_world) = Some (lit "notes")
  /\ is_dir (lit "output") ex_file_world = false
  /\ exists w', generate_blog_roadmap ex_plan_crew false ex_file_world
                = (inl (FileExistsError (lit "output")), w')
       /\ files w' = files ex_file_world.
Proof.
  split; [reflexivity|]. split; [reflexivity|]. split; [reflexivity|].
  destruct (generate_roadmap_output_is_file ex_plan_crew ex_file_world ex_outlines
              (lit "notes") eq_refl eq_refl eq_refl) as (w' & H1 & _ & H3 & _).
  exists w'. split; [exact H1|exact H3].
Defined.

Lemma flow_init_state_witness :
  read_file (lit "roadmap.md") ex_roadmap_world = (inr ex_roadmap_doc, ex_roadmap_world)
  /\ flow_init true (Some (lit "roadmap.md")) ex_roadmap_world
     = (inr tt, set_logs (logs ex_roadmap_world
                          ++ [(INFO, lit "Loaded roadmap from roadmap.md with 2 posts")])
                  (set_state (BlogState.mk (lit "run-1") default_title [] ex_outlines
                                (lit "Caching Strategies") (lit "Explain 3 caching patterns"))
                     ex_roadmap_world)).
Proof.
  assert (Hr : read_file (lit "roadmap.md") ex_roadmap_world
               = (inr ex_roadmap_doc, ex_roadmap_world)) by (vm_compute; reflexivity).
  split; [exact Hr|].
  pose proof (proj2 (flow_init_state true (Some (lit "roadmap.md")) ex_roadmap_world)
                (lit "roadmap.md") ex_roadmap_doc eq_refl eq_refl Hr) as H.
  assert (Hp : parse_roadmap ex_roadmap_doc
               = (lit "Caching Strategies", lit "Explain 3 caching patterns", ex_outlines))
    by (vm_compute; reflexivity).
  rewrite Hp in H. exact H.
Defined.

Lemma kickoff_skip_planning_run_witness :
  read_file (lit "roadmap.md") ex_roadmap_world = (inr ex_roadmap_doc, ex_roadmap_world)
  /\ let w' := snd (kickoff ex_plan_crew ex_write_crew true (Some (lit "roadmap.md"))
                     ex_roadmap_world) in
     plan_calls w' = []
     /\ (BlogState.topic (state w'), BlogState.goal (state w'),
         BlogState.blog_roadmap (state w'))
        = (lit "Caching Strategies", lit "Explain 3 caching patterns", ex_outlines).
Proof.
  assert (Hr : read_file (lit "roadmap.md") ex_roadmap_world
               = (inr ex_roadmap_doc, ex_roadmap_world)) by (vm_compute; reflexivity).
  split; [exact Hr|].
  destruct (kickoff_skip_planning_run ex_plan_crew ex_write_crew (lit "roadmap.md")
              ex_roadmap_doc ex_roadmap_world Hr) as (H1 & _ & _ & H4).
  split; [exact H1|]. rewrite H4. vm_compute. reflexivity.
Defined.

Lemma parse_topic_line_witness :
  contains (lit "## Topic: ") (lit "# Blog" ++ [NL]) = false
  /\ lit "Caching" <> [] /\ contains [NL] (lit "Caching") = false
  /\ fst (fst (parse_roadmap (lit "# Blog" ++ [NL] ++ lit "## Topic: " ++ lit "Caching" ++ [NL])))
     = strip (lit "Caching").
Proof.
  split; [reflexivity|]. split; [discriminate|]. split; [reflexivity|].
  apply (parse_topic_line (lit "# Blog" ++ [NL]) (lit "Caching") [NL]);
    [reflexivity|discriminate|reflexivity|reflexivity].
Defined.

Lemma parse_goal_section_witness :
  contains (lit "## Goal" ++ [NL]) (lit "## Topic: X" ++ [NL; NL]) = false
  /\ contains ([NL; NL] ++ lit "## Planned Posts") (lit " Explain caching ") = false
  /\ snd (fst (parse_roadmap (lit "## Topic: X" ++ [NL; NL] ++ lit "## Goal" ++ [NL]
                              ++ lit " Explain caching " ++ [NL; NL]
                              ++ lit "## Planned Posts" ++ [])))
     = lit "Explain caching".
Proof.
  split; [reflexivity|]. split; [reflexivity|].
  exact (parse_goal_section (lit "## Topic: X" ++ [NL; NL]) (lit " Explain caching ") []
           eq_refl eq_refl).
Defined.

Lemma parse_roadmap_missing_sections_witness :
  contains (lit "## Topic: ") (lit "# Notes") = false
  /\ contains (lit "## Goal" ++ [NL]) (lit "# Notes") = false
  /\ contains (lit "### ") (lit "# Notes") = false
  /\ parse_roadmap (lit "# Notes") = ([], [], []).
Proof.
  split; [reflexivity|]. split; [reflexivity|]. split; [reflexivity|].
  destruct (parse_roadmap_missing_sections (lit "# Notes")) as (H1 & H2 & H3).
  destruct (parse_roadmap (lit "# Notes")) as [[t g] os].
  cbn [fst snd] in *. rewrite (H1 eq_refl), (H2 eq_refl), (H3 eq_refl). reflexivity.
Defined.
